(** * ELISA-MINI-BOT: pairing-code lifecycle and connection registry

    A shallow embedding of the bot service (services/botService), the
    pairing routes (routes/pair.js) and the logout branch of the session
    manager (sessionManager.js), with the properties of the specification
    stated and settled against that embedding.

    Conventions of the embedding:
    - JavaScript strings are [string]; the only character class the code
      uses is [0-9], which is insensitive to the encoding of other
      characters.
    - A JavaScript [Map] is an insertion-ordered list of key/value pairs
      with the [get]/[has]/[set]/[delete] of the language; that keys are
      unique is a theorem about the program, not part of the type.
    - Sockets are objects shared by reference: a socket is an index into a
      store, and the registry and the pairing entries hold that index.
    - The event loop is explicit: pending [setTimeout] callbacks are data,
      [Date.now()] is a logical clock in milliseconds, and the results of
      the protocol library (whether a call throws, whether the restored
      credentials are registered, the value of [Math.random()]) are inputs
      of the operation that consumes them.
    - A pending callback runs at or after its deadline: the clock may
      pass a deadline before the callback has run.
    - Numbers are binary64. Where the code computes with fractions, the
      values are rationals and the rounding of each operation is written
      out.
    - A request body is parsed JSON: a field is a string, is missing, or
      is any other JSON value.
    - Console output is not modelled. *)

From Stdlib Require Import ZArith QArith Qpower Qround Lqa Lia Ascii.
From stdpp Require Import base list strings gmap.

Local Open Scope string_scope.
Local Open Scope Z_scope.

(* ===================================================================== *)
(** ** JavaScript strings and numbers *)
(* ===================================================================== *)

Module JS.

(** The character class [0-9]. *)
Definition is_digit (c : ascii) : bool :=
  let n := N_of_ascii c in ((48 <=? n) && (n <=? 57))%N.

(** [s.replace(/[^0-9]/g, '')]: every character outside [0-9] is
    replaced by the empty string. *)
Fixpoint replace_non_digits (s : string) : string :=
  match s with
  | EmptyString => EmptyString
  | String c r =>
      if is_digit c then String c (replace_non_digits r)
      else replace_non_digits r
  end.

(** [s.replace('+', '')]: a string pattern replaces its first
    occurrence only. *)
Fixpoint replace_first_plus (s : string) : string :=
  match s with
  | EmptyString => EmptyString
  | String c r =>
      if Ascii.eqb c "+"%char then r else String c (replace_first_plus r)
  end.

(** Every character of the string is in [0-9]. *)
Fixpoint all_digits (s : string) : bool :=
  match s with
  | EmptyString => true
  | String c r => is_digit c && all_digits r
  end.

(** [/^\d{8}$/.test(s)] on a string. *)
Definition is_eight_digits (s : string) : bool :=
  (String.length s =? 8)%nat && all_digits s.

(** The decimal digit [d] (0..9) as a character. *)
Definition digit_char (d : Z) : ascii :=
  ascii_of_N (48 + Z.to_N d).

(** Decimal digits of a non-negative integer, most significant first,
    pushed in front of [acc]. *)
Fixpoint digits_from (fuel : nat) (n : Z) (acc : string) : string :=
  match fuel with
  | O => acc
  | S fuel' =>
      let acc' := String (digit_char (n mod 10)) acc in
      if n <? 10 then acc' else digits_from fuel' (n / 10) acc'
  end.

(** [n.toString()] for a non-negative integer [n]; a number with [k]
    decimal digits has at least [k] binary digits, which bounds the
    recursion. *)
Definition toString (n : Z) : string :=
  digits_from (S (Z.to_nat (Z.log2 n))) n EmptyString.

(** [Math.floor] on the rationals. *)
Definition floor (x : Q) : Z := Qfloor x.

(** Truthiness of a request field that is either absent or a string:
    [undefined] and the empty string are falsy. *)
Definition truthy (v : option string) : bool :=
  match v with
  | None => false
  | Some s => negb (String.eqb s "")
  end.

End JS.

(* ===================================================================== *)
(** ** JavaScript [Map] with string keys *)
(* ===================================================================== *)

Module JSMap.
Section Ops.
Context {V : Type}.

Definition t := list (string * V).

Definition empty : list (string * V) := [].

Fixpoint get (k : string) (m : list (string * V)) : option V :=
  match m with
  | [] => None
  | (k', v) :: r => if String.eqb k k' then Some v else get k r
  end.

Definition has (k : string) (m : list (string * V)) : bool :=
  match get k m with Some _ => true | None => false end.

(** [set] overwrites the value of an existing key in place and appends
    a new key at the end. *)
Fixpoint set (k : string) (v : V) (m : list (string * V))
  : list (string * V) :=
  match m with
  | [] => [(k, v)]
  | (k', v') :: r =>
      if String.eqb k k' then (k', v) :: r else (k', v') :: set k v r
  end.

Fixpoint delete (k : string) (m : list (string * V))
  : list (string * V) :=
  match m with
  | [] => []
  | (k', v') :: r =>
      if String.eqb k k' then r else (k', v') :: delete k r
  end.

Definition keys (m : list (string * V)) : list string := map fst m.

(** The entries stored under key [k]. *)
Definition entries (k : string) (m : list (string * V))
  : list (string * V) :=
  List.filter (fun kv => String.eqb k (fst kv)) m.

(** Keys are pairwise distinct. *)
Definition wf (m : list (string * V)) : Prop := NoDup (keys m).
End Ops.
Arguments t : clear implicits.
End JSMap.

(* ===================================================================== *)
(** ** JavaScript numbers: binary64 arithmetic *)
(* ===================================================================== *)

(** A finite Number is a rational; an operation computes the exact
    result and rounds it to the nearest binary64, ties to even. Results
    of magnitude 2^1024 or more, which would be infinite, do not occur
    here and are not modelled. *)
Module Binary64.
Local Open Scope Q_scope.

(** The integer nearest to [z], the even one when two are as near. *)
Definition nearest_even (z : Q) : Z :=
  let f := Qfloor z in
  match Qcompare (z - inject_Z f) (1 # 2) with
  | Lt => f
  | Gt => (f + 1)%Z
  | Eq => if Z.even f then f else (f + 1)%Z
  end.

(** The exponent [e] of the last place of a positive [x]: the one with
    [2^52 <= x / 2^e < 2^53], and -1074 for the subnormal numbers. *)
Definition ulp_exponent (x : Q) : Z :=
  let d := (Z.log2 (Qnum x) - Z.log2 (Zpos (Qden x)) - 52)%Z in
  let e := if Qle_bool (2 ^ 52) (x * 2 ^ (- d)) then d else (d - 1)%Z in
  Z.max e (-1074).

(** A positive [x] brought to a multiple of its last place by the
    integer rounding [to_int]. *)
Definition to_last_place (to_int : Q -> Z) (x : Q) : Q :=
  let e := ulp_exponent x in
  inject_Z (to_int (x * 2 ^ (- e))) * 2 ^ e.

(** Rounding to the nearest binary64, ties to even. *)
Definition round (x : Q) : Q :=
  match Qnum x with
  | Z0 => 0
  | Zpos _ => to_last_place nearest_even x
  | Zneg _ => - to_last_place nearest_even (- x)
  end.

(** The largest binary64 that is at most [x], for [x >= 0]. *)
Definition round_down (x : Q) : Q :=
  match Qnum x with
  | Zpos _ => to_last_place Qfloor x
  | _ => 0
  end.

(** [x * y] and [x + y] on Numbers. *)
Definition mul (x y : Q) : Q := round (x * y).
Definition add (x y : Q) : Q := round (x + y).

End Binary64.

(* ===================================================================== *)
(** ** Node's [path.join], POSIX *)
(* ===================================================================== *)

Module Path.

(** The segments of a path between its slashes. *)
Fixpoint segments (path : string) : list string :=
  match path with
  | EmptyString => [EmptyString]
  | String c rest =>
      if Ascii.eqb c "/"%char then EmptyString :: segments rest
      else match segments rest with
           | [] => [String c EmptyString]
           | seg :: segs => String c seg :: segs
           end
  end.

(** One segment of a relative path, on the segments kept so far (last
    one first): empty segments and [.] are dropped, [..] removes the
    segment before it unless there is none or it is [..] itself. *)
Definition push (kept : list string) (seg : string) : list string :=
  if String.eqb seg "" || String.eqb seg "." then kept
  else if String.eqb seg ".." then
    match kept with
    | [] => [".."]
    | top :: below => if String.eqb top ".." then ".." :: kept else below
    end
  else seg :: kept.

Fixpoint unsegments (segs : list string) : string :=
  match segs with
  | [] => ""
  | [seg] => seg
  | seg :: rest => seg +:+ "/" +:+ unsegments rest
  end.

(** [path.normalize] of a non-empty relative path. *)
Definition normalize (path : string) : string :=
  let segs := segments path in
  let trailing := String.eqb (List.last segs "x") "" in
  let res := unsegments (rev (fold_left push segs [])) in
  if String.eqb res "" then (if trailing then "./" else ".")
  else if trailing then res +:+ "/" else res.

(** [path.join(a, b)] for non-empty [a] and [b], [a] relative. *)
Definition join2 (a b : string) : string := normalize (a +:+ "/" +:+ b).

End Path.

(* ===================================================================== *)
(** ** services/botService *)
(* ===================================================================== *)

(** A call either returns a value or throws. *)
Inductive result (A : Type) : Type :=
| Return (a : A)
| Throw.
Arguments Return {A} a.
Arguments Throw {A}.

Module BotService.

(** [path.join(SESSION_BASE_PATH, `session_${botId}`)] with
    [SESSION_BASE_PATH = './sessions'], on POSIX. *)
Definition sessionPath (botId : string) : string :=
  Path.join2 "./sessions" ("session_" +:+ botId).
Arguments sessionPath : simpl never.

(** A socket object made by [makeWASocket]. Its [connection.update]
    listener closes over the [botId] and [phoneNumber] of the call that
    made it; [registered] is [socket.authState.creds.registered] and
    [user] is [socket.user]. *)
Record Socket := {
  sock_botId : string;
  sock_phoneNumber : string;
  sock_registered : bool;
  sock_user : option string
}.

(** A value of the [pairingCodes] map; [socket] is a reference. *)
Record PairingEntry := {
  code : string;
  socket : nat;
  phoneNumber : string;
  createdAt : Z
}.

(** The two closures the service hands to [setTimeout]. *)
Inductive callback :=
| ExpirePairing (botId : string)
| Reconnect (botId : string) (phoneNumber : string).

Record Timer := { due : Z; run : callback }.

(** Calls that leave the process. *)
Inductive effect :=
| RequestPairingCode (socket : nat) (phoneNumber : string)
| EmitBotStatusUpdate (botId : string) (status : string).

Record State := {
  activeSockets : JSMap.t nat;
  pairingCodes : JSMap.t PairingEntry;
  sockets : list Socket;
  timers : list Timer;
  now : Z;
  dirs : gset string;
  effects : list effect
}.

Definition initial : State :=
  {| activeSockets := JSMap.empty; pairingCodes := JSMap.empty;
     sockets := []; timers := []; now := 0; dirs := ∅; effects := [] |}.

Definition with_activeSockets (m : JSMap.t nat) (s : State) : State :=
  {| activeSockets := m; pairingCodes := pairingCodes s;
     sockets := sockets s; timers := timers s; now := now s;
     dirs := dirs s; effects := effects s |}.

Definition with_pairingCodes (m : JSMap.t PairingEntry) (s : State) : State :=
  {| activeSockets := activeSockets s; pairingCodes := m;
     sockets := sockets s; timers := timers s; now := now s;
     dirs := dirs s; effects := effects s |}.

Definition with_sockets (l : list Socket) (s : State) : State :=
  {| activeSockets := activeSockets s; pairingCodes := pairingCodes s;
     sockets := l; timers := timers s; now := now s;
     dirs := dirs s; effects := effects s |}.

Definition with_timers (l : list Timer) (s : State) : State :=
  {| activeSockets := activeSockets s; pairingCodes := pairingCodes s;
     sockets := sockets s; timers := l; now := now s;
     dirs := dirs s; effects := effects s |}.

Definition with_now (t : Z) (s : State) : State :=
  {| activeSockets := activeSockets s; pairingCodes := pairingCodes s;
     sockets := sockets s; timers := timers s; now := t;
     dirs := dirs s; effects := effects s |}.

Definition with_dirs (d : gset string) (s : State) : State :=
  {| activeSockets := activeSockets s; pairingCodes := pairingCodes s;
     sockets := sockets s; timers := timers s; now := now s;
     dirs := d; effects := effects s |}.

Definition with_effects (l : list effect) (s : State) : State :=
  {| activeSockets := activeSockets s; pairingCodes := pairingCodes s;
     sockets := sockets s; timers := timers s; now := now s;
     dirs := dirs s; effects := l |}.

(** [setTimeout(cb, delay)] *)
Definition setTimeout (cb : callback) (delay : Z) (s : State) : State :=
  with_timers (timers s ++ [{| due := now s + delay; run := cb |}]) s.

Definition perform (e : effect) (s : State) : State :=
  with_effects (effects s ++ [e]) s.

(** What the protocol library does during one session creation. *)
Inductive lib_outcome :=
| AuthStateThrows     (* useMultiFileAuthState rejects *)
| MakeSocketThrows    (* makeWASocket throws *)
| LibOk.

Record CreateEnv := {
  lib : lib_outcome;
  registered : bool;        (* state.creds.registered of the bundle *)
  user : option string;     (* the user descriptor of the bundle *)
  random : Q                (* Math.random(), in [0, 1) *)
}.

Definition TTL : Z := 10 * 60 * 1000.
Definition RECONNECT_DELAY : Z := 5000.

(** [Math.floor(10000000 + Math.random() * 90000000)], in binary64
    arithmetic. [Math.random()] returns a binary64; a rational [r] that
    is not one stands for the binary64 just below it. *)
Definition pairingNumber (r : Q) : Z :=
  JS.floor
    (Binary64.add 10000000 (Binary64.mul (Binary64.round_down r) 90000000)).

Definition generatePairingCode (r : Q) : string :=
  JS.toString (pairingNumber r).

(** [useMultiFileAuthState(sessionPath)] creates the folder when it is
    missing; the socket is then made, stored in [activeSockets] and, when
    its credentials are not registered, given a pairing entry and an
    expiry timer. *)
Definition createBotSessionWithPairing
    (botId phoneNumber : string) (env : CreateEnv) (s : State)
  : result (option string) * State :=
  match lib env with
  | AuthStateThrows => (Throw, s)
  | MakeSocketThrows =>
      (Throw, with_dirs ({[ sessionPath botId ]} ∪ dirs s) s)
  | LibOk =>
      let s := with_dirs ({[ sessionPath botId ]} ∪ dirs s) s in
      let sock := length (sockets s) in
      let s := with_sockets
                 (sockets s ++
                    [{| sock_botId := botId;
                        sock_phoneNumber := phoneNumber;
                        sock_registered := registered env;
                        sock_user := user env |}]) s in
      let s := with_activeSockets (JSMap.set botId sock (activeSockets s)) s in
      if negb (registered env) then
        let pairingCode := generatePairingCode (random env) in
        let s := with_pairingCodes
                   (JSMap.set botId
                      {| code := pairingCode; socket := sock;
                         phoneNumber := phoneNumber;
                         createdAt := now s |} (pairingCodes s)) s in
        let s := setTimeout (ExpirePairing botId) TTL s in
        (Return (Some pairingCode), s)
      else (Return None, s)
  end.

(** The body of the expiry closure. *)
Definition expirePairing (botId : string) (s : State) : State :=
  if JSMap.has botId (pairingCodes s)
  then with_pairingCodes (JSMap.delete botId (pairingCodes s)) s
  else s.

Inductive connection := ConnOpen | ConnClose | ConnConnecting.

(** A [connection.update] event; [statusCode] is
    [lastDisconnect?.error?.output?.statusCode]. *)
Record ConnectionUpdate := {
  connection_of : option connection;
  statusCode : option Z
}.

Definition shouldReconnect (u : ConnectionUpdate) : bool :=
  match statusCode u with
  | Some c => negb (c =? 401)
  | None => true
  end.

(** The [connection.update] listener of socket [sock]. *)
Definition onConnectionUpdate (sock : nat) (u : ConnectionUpdate) (s : State)
  : State :=
  match sockets s !! sock with
  | None => s
  | Some so =>
      let botId := sock_botId so in
      match connection_of u with
      | Some ConnOpen =>
          let s := with_pairingCodes (JSMap.delete botId (pairingCodes s)) s in
          perform (EmitBotStatusUpdate botId "connected") s
      | Some ConnClose =>
          if shouldReconnect u then
            setTimeout (Reconnect botId (sock_phoneNumber so)) RECONNECT_DELAY s
          else
            let s := with_pairingCodes (JSMap.delete botId (pairingCodes s)) s in
            with_activeSockets (JSMap.delete botId (activeSockets s)) s
      | _ => s
      end
  end.

Record VerifyResult := { success : bool; message : string }.

(** [native] is the outcome of [socket.requestPairingCode]: [None] when
    it resolves, [Some m] when it rejects with an error of message [m]. *)
Definition verifyPairingCode
    (botId code' : string) (native : option string) (s : State)
  : VerifyResult * State :=
  match JSMap.get botId (pairingCodes s) with
  | None =>
      ({| success := false; message := "Pairing code expired or invalid" |}, s)
  | Some pairingData =>
      if negb (String.eqb (code pairingData) code') then
        ({| success := false; message := "Invalid pairing code" |}, s)
      else
        let s := perform
                   (RequestPairingCode (socket pairingData)
                      (JS.replace_first_plus (phoneNumber pairingData))) s in
        match native with
        | None => ({| success := true; message := "Pairing successful" |}, s)
        | Some m =>
            ({| success := false; message := "Pairing failed: " +:+ m |}, s)
        end
  end.

Definition getPairingCode (botId : string) (s : State) : option PairingEntry :=
  JSMap.get botId (pairingCodes s).

Record ConnectedBot := {
  cb_botId : string; cb_user : string; cb_connectedAt : Z
}.

Definition getConnectedBots (s : State) : list ConnectedBot :=
  omap (fun kv : string * nat =>
          match sockets s !! snd kv ≫= sock_user with
          | Some u =>
              Some {| cb_botId := fst kv; cb_user := u;
                      cb_connectedAt := now s |}
          | None => None
          end) (activeSockets s).

Record BotStatus := {
  status : string;
  online : bool;
  status_user : option string;
  lastSeen : Z
}.

Definition getBotStatus (botId : string) (s : State) : BotStatus :=
  let socket := JSMap.get botId (activeSockets s) in
  {| status := match socket with
               | Some _ => "connected"
               | None => "disconnected"
               end;
     online := match socket with Some _ => true | None => false end;
     status_user := socket ≫= (fun k => sockets s !! k ≫= sock_user);
     lastSeen := now s |}.

(** The library attaches the authenticated user to a socket object. *)
Definition attachUser (sock : nat) (u : string) (s : State) : State :=
  match sockets s !! sock with
  | None => s
  | Some so =>
      with_sockets
        (<[ sock := {| sock_botId := sock_botId so;
                       sock_phoneNumber := sock_phoneNumber so;
                       sock_registered := sock_registered so;
                       sock_user := Some u |} ]> (sockets s)) s
  end.

End BotService.

(* ===================================================================== *)
(** ** routes/pair.js *)
(* ===================================================================== *)

Module PairRoutes.
Import BotService.

(** The identifiers bound at the top level of the module: [express],
    the three names destructured from [require('../services/botService')],
    [Bot] and [router]. A call through any other free identifier raises
    a ReferenceError. *)
Definition module_scope : list string :=
  [ "express";
    "createBotSessionWithPairing"; "verifyPairingCode"; "getConnectedBots";
    "Bot"; "router" ].

Definition bound (x : string) : bool :=
  existsb (String.eqb x) module_scope.

Inductive Body :=
| Message (m : string)
| GenerateData (botId : string) (pairingCode : option string)
               (instructions expiresIn : string)
| ConnectedData (total : nat) (bots : list ConnectedBot)
| StatusData (data : BotStatus).

Record Response := {
  http_status : Z;
  resp_success : bool;
  body : Body
}.

Definition fail (st : Z) (m : string) : Response :=
  {| http_status := st; resp_success := false; body := Message m |}.

Definition ok (b : Body) : Response :=
  {| http_status := 200; resp_success := true; body := b |}.

Record GenerateRequest := {
  gen_botId : option string;
  gen_phoneNumber : option string
}.

Definition from_field (v : option string) : string :=
  match v with Some x => x | None => "" end.

(** [router.post('/generate', ...)] on a body whose fields are strings
    or missing. *)
Definition postGenerate (req : GenerateRequest) (env : CreateEnv) (s : State)
  : Response * State :=
  if negb (JS.truthy (gen_botId req)) || negb (JS.truthy (gen_phoneNumber req))
  then (fail 400 "Bot ID and phone number are required", s)
  else
    let botId := from_field (gen_botId req) in
    let cleanNumber := JS.replace_non_digits (from_field (gen_phoneNumber req)) in
    if (String.length cleanNumber <? 10)%nat
    then (fail 400 "Invalid phone number format", s)
    else if bound "createBotSessionWithPairing" then
      match createBotSessionWithPairing botId ("+" +:+ cleanNumber) env s with
      | (Return pairingCode, s') =>
          (ok (GenerateData botId pairingCode
                 "Use this 8-digit code in WhatsApp > Linked Devices > Link a Device"
                 "10 minutes"), s')
      | (Throw, s') => (fail 500 "Failed to generate pairing code", s')
      end
    else (fail 500 "Failed to generate pairing code", s).

Record VerifyRequest := {
  ver_botId : option string;
  ver_code : option string
}.

(** [router.post('/verify', ...)] on a body whose fields are strings or
    missing. *)
Definition postVerify (req : VerifyRequest) (native : option string) (s : State)
  : Response * State :=
  if negb (JS.truthy (ver_botId req)) || negb (JS.truthy (ver_code req))
  then (fail 400 "Bot ID and code are required", s)
  else
    let botId := from_field (ver_botId req) in
    let code := from_field (ver_code req) in
    if negb (JS.is_eight_digits code)
    then (fail 400 "Invalid code format. Must be 8 digits.", s)
    else if bound "verifyPairingCode" then
      let (result, s') := verifyPairingCode botId code native s in
      if success result
      then ({| http_status := 200; resp_success := true;
               body := Message "✅ Bot connected successfully!" |}, s')
      else (fail 400 (message result), s')
    else (fail 500 "Verification failed", s).

(** [router.get('/connected', ...)] *)
Definition getConnected (s : State) : Response :=
  if bound "getConnectedBots" then
    let connectedBots := getConnectedBots s in
    ok (ConnectedData (length connectedBots) connectedBots)
  else fail 500 "Failed to fetch connected bots".

(** [router.get('/status/:botId', ...)]: the handler calls
    [getBotStatus(botId)] inside its [try] block. *)
Definition getStatus (botId : string) (s : State) : Response :=
  if bound "getBotStatus" then ok (StatusData (getBotStatus botId s))
  else fail 500 "Failed to get bot status".

End PairRoutes.

(* ===================================================================== *)
(** ** routes/pair.js on any JSON body *)
(* ===================================================================== *)

Module Json.

(** A field of a parsed JSON body; [Undefined] when the body has no such
    field. A number is given by the text [String(n)] prints for it, an
    object by the names of its members: the handlers read no member of
    a field, and of an object only whether it can be turned into a
    string matters. *)
Inductive value :=
| Undefined
| Null
| Bool (b : bool)
| Number (text : string)
| Str (s : string)
| Array (elements : items)
| Object (keys : list string)
with items :=
| NoItems
| Item (first : value) (rest : items).

Definition truthy (v : value) : bool :=
  match v with
  | Undefined | Null => false
  | Bool b => b
  | Number text => negb (String.eqb text "0")
  | Str s => negb (String.eqb s "")
  | Array _ | Object _ => true
  end.

(** [String(v)], [None] when it throws a TypeError. An array prints its
    items separated by commas, the [null] and [undefined] ones as
    nothing. An object prints as ["[object Object]"] through
    [Object.prototype.toString], unless a member named [toString] hides
    that method: a member parsed from JSON is no function, and
    [valueOf] returns the object itself. *)
Fixpoint toStr (v : value) : option string :=
  match v with
  | Undefined => Some "undefined"
  | Null => Some "null"
  | Bool b => Some (if b then "true" else "false")
  | Number text => Some text
  | Str s => Some s
  | Array elements => joined elements
  | Object keys =>
      if existsb (String.eqb "toString") keys then None
      else Some "[object Object]"
  end
with joined (l : items) : option string :=
  match l with
  | NoItems => Some ""
  | Item x rest =>
      let item := match x with
                  | Undefined | Null => Some ""
                  | _ => toStr x
                  end in
      match item, rest with
      | None, _ => None
      | Some i, NoItems => Some i
      | Some i, Item _ _ =>
          match joined rest with
          | Some r => Some (i +:+ "," +:+ r)
          | None => None
          end
      end
  end.

(** A field that is a string or missing. *)
Definition of_field (v : option string) : value :=
  match v with
  | Some x => Str x
  | None => Undefined
  end.

End Json.

Module PairRoutesJson.
Import BotService PairRoutes.

(** The body of a generate request. The bot id is a string or missing,
    as the keys of the service's tables are; the phone number is any
    value. *)
Record GenerateBody := {
  body_botId : option string;
  body_phoneNumber : Json.value
}.

(** [router.post('/generate', ...)]. Only a string has a [replace]
    method: on any other value [phoneNumber.replace] is no function,
    the call throws inside the [try], and the [catch] answers 500
    before the service is called. *)
Definition postGenerate (req : GenerateBody) (env : CreateEnv) (s : State)
  : Response * State :=
  if negb (JS.truthy (body_botId req))
     || negb (Json.truthy (body_phoneNumber req))
  then (fail 400 "Bot ID and phone number are required", s)
  else
    let botId := from_field (body_botId req) in
    match body_phoneNumber req with
    | Json.Str phoneNumber =>
        let cleanNumber := JS.replace_non_digits phoneNumber in
        if (String.length cleanNumber <? 10)%nat
        then (fail 400 "Invalid phone number format", s)
        else if bound "createBotSessionWithPairing" then
          match createBotSessionWithPairing botId ("+" +:+ cleanNumber) env s
          with
          | (Return pairingCode, s') =>
              (ok (GenerateData botId pairingCode
                     "Use this 8-digit code in WhatsApp > Linked Devices > Link a Device"
                     "10 minutes"), s')
          | (Throw, s') => (fail 500 "Failed to generate pairing code", s')
          end
        else (fail 500 "Failed to generate pairing code", s)
    | _ => (fail 500 "Failed to generate pairing code", s)
    end.

Record VerifyBody := {
  body_verify_botId : option string;
  body_code : Json.value
}.

(** [verifyPairingCode(botId, code)] for any value [code]: the stored
    code is a string, so [pairingData.code !== code] holds for every
    [code] that is not one. *)
Definition verifyPairingCode
    (botId : string) (code' : Json.value) (native : option string) (s : State)
  : VerifyResult * State :=
  match code' with
  | Json.Str c => BotService.verifyPairingCode botId c native s
  | _ =>
      match JSMap.get botId (pairingCodes s) with
      | None =>
          ({| success := false;
              message := "Pairing code expired or invalid" |}, s)
      | Some _ =>
          ({| success := false; message := "Invalid pairing code" |}, s)
      end
  end.

(** [router.post('/verify', ...)]: [RegExp.prototype.test] matches the
    pattern against [String(code)], and throws when that does. *)
Definition postVerify (req : VerifyBody) (native : option string) (s : State)
  : Response * State :=
  if negb (JS.truthy (body_verify_botId req))
     || negb (Json.truthy (body_code req))
  then (fail 400 "Bot ID and code are required", s)
  else
    let botId := from_field (body_verify_botId req) in
    match Json.toStr (body_code req) with
    | None => (fail 500 "Verification failed", s)
    | Some text =>
        if negb (JS.is_eight_digits text)
        then (fail 400 "Invalid code format. Must be 8 digits.", s)
        else if bound "verifyPairingCode" then
          let (result, s') :=
            verifyPairingCode botId (body_code req) native s in
          if success result
          then ({| http_status := 200; resp_success := true;
                   body := Message "✅ Bot connected successfully!" |}, s')
          else (fail 400 (message result), s')
        else (fail 500 "Verification failed", s)
    end.

(** The bodies whose fields are strings or missing. *)
Definition generate_body (req : GenerateRequest) : GenerateBody :=
  {| body_botId := gen_botId req;
     body_phoneNumber := Json.of_field (gen_phoneNumber req) |}.

Definition verify_body (req : VerifyRequest) : VerifyBody :=
  {| body_verify_botId := ver_botId req;
     body_code := Json.of_field (ver_code req) |}.

End PairRoutesJson.

(* ===================================================================== *)
(** ** sessionManager.js: the single default session *)
(* ===================================================================== *)

Module SessionManager.

(** [path.join(__dirname, 'sessions')], relative to the module. *)
Definition SESSION_DIR : string := "sessions".

(** [DisconnectReason.loggedOut] of the protocol library. *)
Definition loggedOut : Z := 401.

Record State := {
  isConnected : bool;
  reconnects : list Z;       (* due times of pending reconnect timers *)
  now : Z;
  dirs : gset string
}.

(** [clearSession]: removes the session directory when it exists. *)
Definition clearSession (s : State) : State :=
  if bool_decide (SESSION_DIR ∈ dirs s)
  then {| isConnected := isConnected s; reconnects := reconnects s;
          now := now s; dirs := dirs s ∖ {[ SESSION_DIR ]} |}
  else s.

(** The [connection === 'close'] branch of the listener installed by
    [setupEventHandlers]. *)
Definition onClose (statusCode : option Z) (s : State) : State :=
  let shouldReconnect :=
    match statusCode with
    | Some c => negb (c =? loggedOut)
    | None => true
    end in
  if shouldReconnect
  then {| isConnected := isConnected s;
          reconnects := reconnects s ++ [now s + 5000];
          now := now s; dirs := dirs s |}
  else clearSession s.

End SessionManager.

(* ===================================================================== *)
(** ** The event loop *)
(* ===================================================================== *)

Module EventLoop.
Import BotService PairRoutes.

(** One task of the event loop. Tasks run to completion; the state
    changes of [createBotSessionWithPairing] all happen after its only
    suspension point and those of [verifyPairingCode] before it, so
    each call is one task. *)
Inductive event :=
| Create (botId phoneNumber : string) (env : CreateEnv)
| Verify (botId code : string) (native : option string)
| Generate (req : GenerateRequest) (env : CreateEnv)
| VerifyRequested (req : VerifyRequest) (native : option string)
| ConnectionUpdated (sock : nat) (u : ConnectionUpdate)
| UserAttached (sock : nat) (u : string)
| Fire (i : nat) (env : CreateEnv)
| Tick (t : Z).

Definition runCallback (cb : callback) (env : CreateEnv) (s : State) : State :=
  match cb with
  | ExpirePairing botId => expirePairing botId s
  | Reconnect botId phoneNumber =>
      snd (createBotSessionWithPairing botId phoneNumber env s)
  end.

(** The [i]-th pending timer runs, once its delay has elapsed. *)
Definition fire (i : nat) (env : CreateEnv) (s : State) : option State :=
  match timers s !! i with
  | None => None
  | Some t =>
      if due t <=? now s
      then Some (runCallback (run t) env (with_timers (delete i (timers s)) s))
      else None
  end.

(** The clock advances. It may pass the deadline of a pending timer:
    a callback runs at or after its deadline. *)
Definition tick (t : Z) (s : State) : option State :=
  if now s <=? t then Some (with_now t s) else None.

Definition step (e : event) (s : State) : option State :=
  match e with
  | Create botId phoneNumber env =>
      Some (snd (createBotSessionWithPairing botId phoneNumber env s))
  | Verify botId code native =>
      Some (snd (verifyPairingCode botId code native s))
  | Generate req env => Some (snd (postGenerate req env s))
  | VerifyRequested req native => Some (snd (postVerify req native s))
  | ConnectionUpdated sock u => Some (onConnectionUpdate sock u s)
  | UserAttached sock u => Some (attachUser sock u s)
  | Fire i env => fire i env s
  | Tick t => tick t s
  end.

Fixpoint exec (evs : list event) (s : State) : option State :=
  match evs with
  | [] => Some s
  | e :: evs' =>
      match step e s with
      | Some s' => exec evs' s'
      | None => None
      end
  end.

Definition reachable (s : State) : Prop :=
  ∃ evs, exec evs initial = Some s.

(** Every callback that is due has run. *)
Definition quiescent (s : State) : bool :=
  forallb (fun tm => now s <? due tm) (timers s).

(** The invariant of the loop. *)
Record invariant (s : State) : Prop := {
  inv_registry : JSMap.wf (activeSockets s);
  inv_pairing : JSMap.wf (pairingCodes s);
  inv_expiry : ∀ botId e,
      JSMap.get botId (pairingCodes s) = Some e →
      {| due := createdAt e + TTL; run := ExpirePairing botId |} ∈ timers s
}.

(** What a task may do to the pending timers: set more of them. *)
Definition appends (s s' : State) : Prop :=
  ∃ added, timers s' = (timers s ++ added)%list.

End EventLoop.

(* ===================================================================== *)
(** ** Concrete scenarios *)
(* ===================================================================== *)

Module Scenario.
Import BotService PairRoutes EventLoop.

(** A bundle that was never paired, and the value of [Math.random()]. *)
Definition fresh (r : Q) : CreateEnv :=
  {| lib := LibOk; registered := false; user := None; random := r |}.

(** A bundle restored from a paired session. *)
Definition restored : CreateEnv :=
  {| lib := LibOk; registered := true;
     user := Some "15550100@s.whatsapp.net"; random := 1 # 2 |}.

Definition generate_b1 : GenerateRequest :=
  {| gen_botId := Some "b1"; gen_phoneNumber := Some "+1 555 0100 22" |}.

(** The state after [POST /pair/generate] for b1 on a fresh process. *)
Definition pending_b1 : State :=
  snd (postGenerate generate_b1 (fresh (1 # 2)) initial).

Definition verify_b1 (c : string) : VerifyRequest :=
  {| ver_botId := Some "b1"; ver_code := Some c |}.

(** The state after a session was created for b2. *)
Definition pending_b2 : State :=
  snd (createBotSessionWithPairing "b2" "+15550100222" (fresh (1 # 4)) initial).

Definition logout : ConnectionUpdate :=
  {| connection_of := Some ConnClose; statusCode := Some 401 |}.

Definition opened : ConnectionUpdate :=
  {| connection_of := Some ConnOpen; statusCode := None |}.

(** Two sessions created for b1 five minutes apart, then the clock at
    the deadline of the first expiry timer. *)
Definition superseded : list event :=
  [ Create "b1" "+15550100222" (fresh (1 # 2));
    Tick 300000;
    Create "b1" "+15550100222" (fresh (1 # 4));
    Tick 600000 ].

Definition after (evs : list event) : State :=
  default initial (exec evs initial).

Definition superseded_state : State := after superseded.

(** A session created for b1, its expiry run on time, and the clock
    well past the deadline. *)
Definition expired : list event :=
  [ Create "b1" "+15550100222" (fresh (1 # 2));
    Tick 600000;
    Fire 0 (fresh (1 # 2));
    Tick 700000 ].

Definition expired_state : State := after expired.

(** The default session directory exists. *)
Definition default_session : SessionManager.State :=
  {| SessionManager.isConnected := true; SessionManager.reconnects := [];
     SessionManager.now := 0;
     SessionManager.dirs := {[ SessionManager.SESSION_DIR ]} |}.

End Scenario.

(* ===================================================================== *)
(** ** References between the tables and the socket store *)
(* ===================================================================== *)

Module References.
Import BotService.

(** Every reference held by the registry or by a pairing entry points to
    a socket that was made for the same bot; a pairing entry belongs to a
    bot that is in the registry, was made for a socket with unregistered
    credentials and the same phone number, and is not dated in the
    future; a bot in the registry has its session directory. *)
Record linked (s : State) : Prop := {
  link_registry : ∀ botId sock,
      JSMap.get botId (activeSockets s) = Some sock →
      ∃ so, sockets s !! sock = Some so ∧ sock_botId so = botId;
  link_pairing : ∀ botId e,
      JSMap.get botId (pairingCodes s) = Some e →
      ∃ so, sockets s !! socket e = Some so
            ∧ sock_botId so = botId
            ∧ sock_phoneNumber so = phoneNumber e
            ∧ sock_registered so = false;
  link_live : ∀ botId e,
      JSMap.get botId (pairingCodes s) = Some e →
      is_Some (JSMap.get botId (activeSockets s));
  link_dir : ∀ botId sock,
      JSMap.get botId (activeSockets s) = Some sock →
      sessionPath botId ∈ dirs s;
  link_clock : ∀ botId e,
      JSMap.get botId (pairingCodes s) = Some e → createdAt e ≤ now s
}.

(** The same [connection.update] event delivered [n] times. *)
Definition repeated (n : nat) (sock : nat) (u : ConnectionUpdate) (s : State)
  : State :=
  Nat.iter n (onConnectionUpdate sock u) s.

End References.

Module Scenario2.
Import BotService PairRoutes EventLoop.

(** A non-terminal closure: any status code but 401. *)
Definition dropped : ConnectionUpdate :=
  {| connection_of := Some ConnClose; statusCode := Some 428 |}.

(** b1 is pending, b2 is restored from a paired session and has a user. *)
Definition two_bots : list event :=
  [ Generate Scenario.generate_b1 (Scenario.fresh (1 # 2));
    Create "b2" "+15550100222" Scenario.restored ].

Definition two_bots_state : State := Scenario.after two_bots.

(** A session created for b1 and the clock at the deadline of its expiry
    timer, which has not run yet. *)
Definition at_deadline : list event :=
  [ Create "b1" "+15550100222" (Scenario.fresh (1 # 2)); Tick 600000 ].

Definition at_deadline_state : State := Scenario.after at_deadline.

(** The same with the clock well past the deadline. *)
Definition overdue : list event :=
  [ Create "b1" "+15550100222" (Scenario.fresh (1 # 2)); Tick 700000 ].

Definition overdue_state : State := Scenario.after overdue.

(** b1 is pending and its connection has dropped 5 seconds ago. *)
Definition dropped_b1 : list event :=
  [ Generate Scenario.generate_b1 (Scenario.fresh (1 # 2));
    ConnectionUpdated 0 dropped;
    Tick 5000 ].

Definition dropped_b1_state : State := Scenario.after dropped_b1.

End Scenario2.

(* ===================================================================== *)
(** ** More JavaScript strings *)
(* ===================================================================== *)

Module JSString.

(** [s.startsWith(p)] *)
Fixpoint startsWith (p s : string) : bool :=
  match p with
  | EmptyString => true
  | String a p' =>
      match s with
      | EmptyString => false
      | String b s' => Ascii.eqb a b && startsWith p' s'
      end
  end.

(** [s.endsWith(p)]: [s] is [p], or what follows its first character
    ends with [p]. *)
Fixpoint endsWith (p s : string) : bool :=
  String.eqb s p
  || match s with
     | EmptyString => false
     | String _ s' => endsWith p s'
     end.

End JSString.

(* ===================================================================== *)
(** ** config.js *)
(* ===================================================================== *)

Module Config.

Definition DEFAULT_SESSION_ID : string :=
  "IZUKA~aIwknC7B#Av_3Mi-hqT_RbE2oIeUV_4fMqbNZYG3Jw0xfESwJ60Y".

(** [process.env.SESSION_ID || "IZUKA~..."], for the environment
    variable [env] ([None] when it is not set). *)
Definition SESSION_ID (env : option string) : string :=
  match env with
  | Some v => if String.eqb v "" then DEFAULT_SESSION_ID else v
  | None => DEFAULT_SESSION_ID
  end.

End Config.

(* ===================================================================== *)
(** ** sessionManager.js: the whole class *)
(* ===================================================================== *)

Module DefaultSession.

(** A call on the session manager either returns or throws an error with
    a message. *)
Inductive outcome (A : Type) : Type :=
| Ok (a : A)
| Err (message : string).
Arguments Ok {A} a.
Arguments Err {A} message.

(** The methods of the class. Calling any other property of [this]
    throws a TypeError. *)
Definition methods : list string :=
  [ "initializeSession"; "downloadSession"; "downloadFromMega";
    "downloadFromURL"; "decodeSession"; "connectToWhatsApp";
    "setupEventHandlers"; "loadPlugins"; "clearSession"; "backupSession";
    "getStatus" ].

Definition has_method (m : string) : bool := existsb (String.eqb m) methods.

(** [this.conn]: the socket and its user. *)
Record Conn := { conn_user : option string }.

(** What goes out on [global.io], taken to be attached. *)
Inductive emission :=
| QrGenerated (qr : string)
| ConnectionStatus (status : string) (user : option string).

(** [base] holds the flag, the pending reconnect timers, the clock and
    the directories; [credsFile] says whether [sessions/creds.json]
    exists; [pluginDir] is the listing of the plugins directory, when it
    exists; [loaded] are the plugins required so far. *)
Record Session := {
  base : SessionManager.State;
  conn : option Conn;
  credsFile : bool;
  pluginDir : option (list string);
  loaded : list string;
  emitted : list emission
}.

Definition with_base (b : SessionManager.State) (s : Session) : Session :=
  {| base := b; conn := conn s; credsFile := credsFile s;
     pluginDir := pluginDir s; loaded := loaded s; emitted := emitted s |}.

Definition with_conn (c : option Conn) (s : Session) : Session :=
  {| base := base s; conn := c; credsFile := credsFile s;
     pluginDir := pluginDir s; loaded := loaded s; emitted := emitted s |}.

Definition with_credsFile (b : bool) (s : Session) : Session :=
  {| base := base s; conn := conn s; credsFile := b;
     pluginDir := pluginDir s; loaded := loaded s; emitted := emitted s |}.

Definition emit (e : emission) (s : Session) : Session :=
  {| base := base s; conn := conn s; credsFile := credsFile s;
     pluginDir := pluginDir s; loaded := loaded s;
     emitted := emitted s ++ [e] |}.

(** [fs.mkdirSync(SESSION_DIR, { recursive: true })] when it is missing;
    also what [useMultiFileAuthState(SESSION_DIR)] does to the folder. *)
Definition ensureSessionDir (s : Session) : Session :=
  with_base
    {| SessionManager.isConnected := SessionManager.isConnected (base s);
       SessionManager.reconnects := SessionManager.reconnects (base s);
       SessionManager.now := SessionManager.now (base s);
       SessionManager.dirs :=
         {[ SessionManager.SESSION_DIR ]} ∪ SessionManager.dirs (base s) |}
    s.

(** What the network and the protocol library do during one call. *)
Inductive fetch_result :=
| FetchRejects (m : string)       (* fetch rejects *)
| FetchNotOk                      (* response.ok is false *)
| FetchJsonRejects (m : string)   (* response.json() rejects *)
| FetchJson.                      (* a JSON body *)

Inductive connect_result :=
| AuthStateRejects (m : string)   (* useMultiFileAuthState rejects *)
| SocketThrows (m : string)       (* fetchLatestBaileysVersion or
                                     makeWASocket throws *)
| Connects.

Record Env := {
  env_SESSION_ID : option string;   (* process.env.SESSION_ID *)
  fetched : fetch_result;
  decoded : option string;          (* JSON.parse of the base64 text:
                                       [Some m] when it throws *)
  connects : connect_result;
  restored_user : option string     (* the user of the restored bundle *)
}.

(** [downloadFromMega]: the reference is turned into a URL, and
    [this.fetchSessionData(fileUrl)] is called. *)
Definition downloadFromMega (s : Session) : outcome unit * Session :=
  if has_method "fetchSessionData"
  then (Ok tt, with_credsFile true s)
  else (Err "this.fetchSessionData is not a function", s).

Definition downloadFromURL (env : Env) (s : Session) : outcome unit * Session :=
  match fetched env with
  | FetchRejects m => (Err m, s)
  | FetchNotOk => (Err "Failed to fetch session", s)
  | FetchJsonRejects m => (Err m, s)
  | FetchJson => (Ok tt, with_credsFile true s)
  end.

Definition decodeSession (env : Env) (s : Session) : outcome unit * Session :=
  match decoded env with
  | Some m => (Err m, s)
  | None => (Ok tt, with_credsFile true s)
  end.

Definition downloadSession (env : Env) (s : Session) : outcome unit * Session :=
  let id := Config.SESSION_ID (env_SESSION_ID env) in
  if JSString.startsWith "IZUKA~" id then downloadFromMega s
  else if JSString.startsWith "http" id then downloadFromURL env s
  else decodeSession env s.

Definition connectToWhatsApp (env : Env) (s : Session)
  : outcome Conn * Session :=
  match connects env with
  | AuthStateRejects m => (Err m, s)
  | SocketThrows m => (Err m, ensureSessionDir s)
  | Connects =>
      let c := {| conn_user := restored_user env |} in
      (Ok c, with_conn (Some c) (ensureSessionDir s))
  end.

Definition initializeSession (env : Env) (s : Session)
  : outcome Conn * Session :=
  let s := ensureSessionDir s in
  let hasLocalSession := credsFile s in
  let downloaded :=
    if negb hasLocalSession
       && negb (String.eqb (Config.SESSION_ID (env_SESSION_ID env)) "")
    then downloadSession env s
    else (Ok tt, s) in
  match downloaded with
  | (Err m, s) => (Err m, s)
  | (Ok _, s) => connectToWhatsApp env s
  end.

(** [clearSession]: the directory goes with everything in it. *)
Definition clearSession (s : Session) : Session :=
  if bool_decide (SessionManager.SESSION_DIR ∈ SessionManager.dirs (base s))
  then with_credsFile false (with_base (SessionManager.clearSession (base s)) s)
  else s.

(** A plugin file ends in [.js] and does not start with [_]. *)
Definition isPlugin (file : string) : bool :=
  JSString.endsWith ".js" file && negb (JSString.startsWith "_" file).

(** [loadPlugins]; [loads f] says whether [require] of plugin [f]
    returns. *)
Definition loadPlugins (loads : string → bool) (s : Session) : Session :=
  match pluginDir s with
  | None =>
      {| base := base s; conn := conn s; credsFile := credsFile s;
         pluginDir := Some []; loaded := loaded s; emitted := emitted s |}
  | Some files =>
      {| base := base s; conn := conn s; credsFile := credsFile s;
         pluginDir := pluginDir s;
         loaded := loaded s ++ List.filter loads (List.filter isPlugin files);
         emitted := emitted s |}
  end.

Inductive connection := ConnOpen | ConnClose | ConnConnecting.

Record Update := {
  connection_of : option connection;
  statusCode : option Z;
  qr : option string
}.

Definition setConnected (s : Session) : Session :=
  with_base
    {| SessionManager.isConnected := true;
       SessionManager.reconnects := SessionManager.reconnects (base s);
       SessionManager.now := SessionManager.now (base s);
       SessionManager.dirs := SessionManager.dirs (base s) |}
    s.

Definition isLoggedOut (code : option Z) : bool :=
  match code with
  | Some c => c =? SessionManager.loggedOut
  | None => false
  end.

(** The [connection.update] listener installed by [setupEventHandlers];
    it exists once [this.conn] is set. *)
Definition onUpdate (u : Update) (loads : string → bool) (s : Session)
  : Session :=
  let s := if JS.truthy (qr u)
           then emit (QrGenerated (default "" (qr u))) s
           else s in
  match connection_of u with
  | Some ConnClose =>
      if isLoggedOut (statusCode u)
      then clearSession s
      else with_base (SessionManager.onClose (statusCode u) (base s)) s
  | Some ConnOpen =>
      let s := setConnected s in
      let s := loadPlugins loads s in
      emit (ConnectionStatus "connected" (conn s ≫= conn_user)) s
  | _ => s
  end.

(** The [i]-th pending reconnect runs: [this.connectToWhatsApp()]. *)
Definition fireReconnect (i : nat) (env : Env) (s : Session) : Session :=
  match SessionManager.reconnects (base s) !! i with
  | None => s
  | Some _ =>
      snd (connectToWhatsApp env
             (with_base
                {| SessionManager.isConnected :=
                     SessionManager.isConnected (base s);
                   SessionManager.reconnects :=
                     delete i (SessionManager.reconnects (base s));
                   SessionManager.now := SessionManager.now (base s);
                   SessionManager.dirs := SessionManager.dirs (base s) |}
                s))
  end.

Record Status := {
  st_isConnected : bool;
  st_user : option string;
  st_sessionExists : bool
}.

Definition getStatus (s : Session) : Status :=
  {| st_isConnected := SessionManager.isConnected (base s);
     st_user := conn s ≫= conn_user;
     st_sessionExists := credsFile s |}.

End DefaultSession.

(* ===================================================================== *)
(** ** routes/session.js *)
(* ===================================================================== *)

Module SessionRoutes.
Import DefaultSession.

Inductive Body :=
| Message (m : string)
| StatusData (data : Status).

Record Response := {
  http_status : Z;
  resp_success : bool;
  body : Body
}.

(** [router.get('/status', ...)] *)
Definition getStatusRoute (s : Session) : Response :=
  {| http_status := 200; resp_success := true;
     body := StatusData (getStatus s) |}.

(** [router.post('/restart', ...)] *)
Definition postRestart (env : Env) (s : Session) : Response * Session :=
  let s := clearSession s in
  match initializeSession env s with
  | (Ok _, s) =>
      ({| http_status := 200; resp_success := true;
          body := Message "Session restarted" |}, s)
  | (Err m, s) =>
      ({| http_status := 500; resp_success := false; body := Message m |}, s)
  end.

(** [router.delete('/clear', ...)] *)
Definition deleteClear (s : Session) : Response * Session :=
  ({| http_status := 200; resp_success := true;
      body := Message "Session cleared" |}, clearSession s).

(** One task on the default session. *)
Inductive event :=
| Initialize (env : Env)
| Restart (env : Env)
| Clear
| Updated (u : Update) (loads : string → bool)
| ReconnectFired (i : nat) (env : Env).

Definition step (e : event) (s : Session) : Session :=
  match e with
  | Initialize env => snd (initializeSession env s)
  | Restart env => snd (postRestart env s)
  | Clear => snd (deleteClear s)
  | Updated u loads => onUpdate u loads s
  | ReconnectFired i env => fireReconnect i env s
  end.

Definition run (evs : list event) (s : Session) : Session :=
  foldl (fun s e => step e s) s evs.

(** The credentials file lives in the session directory. *)
Definition consistent (s : Session) : Prop :=
  credsFile s = true →
  SessionManager.SESSION_DIR ∈ SessionManager.dirs (base s).

End SessionRoutes.

Module Scenario3.
Import DefaultSession SessionRoutes.

(** A process that is connected on a restored session. *)
Definition connected : Session :=
  {| base := Scenario.default_session;
     conn := Some {| conn_user := Some "15550100@s.whatsapp.net" |};
     credsFile := true;
     pluginDir := Some ["menu.js"; "_draft.js"; "notes.txt"; "ping.js"];
     loaded := []; emitted := [] |}.

(** Nothing is set in the environment and every call would go well. *)
Definition defaults : Env :=
  {| env_SESSION_ID := None; fetched := FetchJson; decoded := None;
     connects := Connects;
     restored_user := Some "15550100@s.whatsapp.net" |}.

(** The session reference is a URL. *)
Definition from_url (f : fetch_result) : Env :=
  {| env_SESSION_ID := Some "https://example.org/creds.json"; fetched := f;
     decoded := None; connects := Connects;
     restored_user := Some "15550100@s.whatsapp.net" |}.

Definition logged_out : Update :=
  {| connection_of := Some ConnClose; statusCode := Some 401; qr := None |}.

End Scenario3.

(* ===================================================================== *)
(** ** Facts about strings and numbers *)
(* ===================================================================== *)

Module JSFacts.
Import JS.

Lemma all_digits_replace_non_digits s :
  all_digits (replace_non_digits s) = true.
Proof.
  induction s as [|c r IH]; simpl; [done|].
  destruct (is_digit c) eqn:Hc; simpl; [by rewrite Hc|done].
Qed.

Lemma replace_non_digits_fixed s :
  all_digits s = true → replace_non_digits s = s.
Proof.
  induction s as [|c r IH]; simpl; [done|].
  intros [Hc Hr]%andb_prop. rewrite Hc. by rewrite IH.
Qed.

Lemma replace_non_digits_length s :
  (String.length (replace_non_digits s) ≤ String.length s)%nat.
Proof.
  induction s as [|c r IH]; simpl; [done|].
  destruct (is_digit c); simpl; lia.
Qed.





End JSFacts.

(* ===================================================================== *)
(** ** Facts about [Map] *)
(* ===================================================================== *)

Module JSMapFacts.
Import JSMap.

Section Facts.
Context {V : Type}.
Implicit Types (m : list (string * V)) (k : string) (v : V).

Ltac eqb_cases k k' :=
  destruct (String.eqb_spec k k'); simplify_eq/=.

Lemma get_None_keys k m : get k m = None ↔ k ∉ keys m.
Proof.
  induction m as [|[k' v'] r IH]; simpl.
  - split; [intros _; apply not_elem_of_nil|done].
  - rewrite not_elem_of_cons. eqb_cases k k'.
    + split; [done|]. by intros [? _].
    + rewrite IH. split; [done|]. by intros [_ ?].
Qed.

Lemma get_Some_elem k v m : get k m = Some v → (k, v) ∈ m.
Proof.
  induction m as [|[k' v'] r IH]; simpl; [done|].
  eqb_cases k k'.
  - intros [= ->]. apply list_elem_of_here.
  - intros H. apply list_elem_of_further. auto.
Qed.

Lemma get_set_eq k v m : get k (set k v m) = Some v.
Proof.
  induction m as [|[k' v'] r IH]; simpl.
  - by rewrite String.eqb_refl.
  - eqb_cases k k'; simpl.
    + by rewrite String.eqb_refl.
    + destruct (String.eqb_spec k k'); [done|]. apply IH.
Qed.

Lemma get_set_ne k k' v m : k ≠ k' → get k' (set k v m) = get k' m.
Proof.
  intros Hne. induction m as [|[k0 v0] r IH]; simpl.
  - destruct (String.eqb_spec k' k); [congruence|done].
  - eqb_cases k k0; simpl.
    + destruct (String.eqb_spec k' k0); [congruence|done].
    + destruct (String.eqb_spec k' k0); [done|]. apply IH.
Qed.

Lemma keys_set k v m :
  keys (set k v m) = if has k m then keys m else (keys m ++ [k])%list.
Proof.
  unfold has. induction m as [|[k' v'] r IH]; simpl; [done|].
  eqb_cases k k'; [done|].
  rewrite IH. by destruct (get k r).
Qed.

Lemma wf_set k v m : wf m → wf (set k v m).
Proof.
  unfold wf. rewrite keys_set. unfold has.
  destruct (get k m) eqn:Hget; [done|].
  intros Hnd. apply NoDup_app. split_and!; [done| |apply NoDup_singleton].
  intros x Hx ->%list_elem_of_singleton.
  by apply get_None_keys in Hget.
Qed.

Lemma keys_delete_subseteq k m : keys (delete k m) ⊆ keys m.
Proof.
  induction m as [|[k' v'] r IH]; simpl; [done|].
  eqb_cases k k'.
  - intros x Hx. by apply list_elem_of_further.
  - intros x [->|Hx]%elem_of_cons.
    + apply list_elem_of_here.
    + apply list_elem_of_further. by apply IH.
Qed.

Lemma wf_delete k m : wf m → wf (delete k m).
Proof.
  unfold wf. induction m as [|[k' v'] r IH]; simpl; [done|].
  rewrite NoDup_cons. intros [Hk' Hr].
  eqb_cases k k'; [done|].
  apply NoDup_cons. split; [|auto].
  intros Hin. apply Hk'. by apply (keys_delete_subseteq k).
Qed.

Lemma get_delete_eq k m : wf m → get k (delete k m) = None.
Proof.
  unfold wf. induction m as [|[k' v'] r IH]; simpl; [done|].
  rewrite NoDup_cons. intros [Hk' Hr].
  eqb_cases k k'.
  - by apply get_None_keys.
  - destruct (String.eqb_spec k k'); [done|]. auto.
Qed.

Lemma get_delete_ne k k' m : k ≠ k' → get k' (delete k m) = get k' m.
Proof.
  intros Hne. induction m as [|[k0 v0] r IH]; simpl; [done|].
  eqb_cases k k0; simpl.
  - destruct (String.eqb_spec k' k0); [congruence|done].
  - destruct (String.eqb_spec k' k0); [done|]. apply IH.
Qed.

Lemma get_delete_Some k k' v m :
  wf m → get k' (delete k m) = Some v → k ≠ k' ∧ get k' m = Some v.
Proof.
  intros Hwf Hget. destruct (decide (k = k')) as [->|Hne].
  - by rewrite get_delete_eq in Hget.
  - by rewrite get_delete_ne in Hget.
Qed.

Lemma entries_absent k m : k ∉ keys m → entries k m = [].
Proof.
  induction m as [|[k' v'] r IH]; simpl; [done|].
  rewrite not_elem_of_cons. intros [Hne Hr].
  destruct (String.eqb_spec k k'); [done|]. auto.
Qed.

Lemma entries_get k m :
  wf m →
  entries k m = match get k m with Some v => [(k, v)] | None => [] end.
Proof.
  unfold wf. induction m as [|[k' v'] r IH]; simpl; [done|].
  rewrite NoDup_cons. intros [Hk' Hr].
  eqb_cases k k'.
  - by rewrite entries_absent.
  - auto.
Qed.

Lemma entries_at_most_one k m : wf m → (length (entries k m) ≤ 1)%nat.
Proof.
  intros Hwf. rewrite entries_get by done.
  destruct (get k m); simpl; lia.
Qed.

Lemma has_get k m : has k m = true ↔ is_Some (get k m).
Proof.
  unfold has. destruct (get k m); split; try done.
Qed.
End Facts.
End JSMapFacts.

(* ===================================================================== *)
(** ** The invariant of the event loop *)
(* ===================================================================== *)

Module EventLoopFacts.
Import BotService PairRoutes EventLoop JSMapFacts.

Lemma invariant_initial : invariant initial.
Proof.
  split; simpl.
  - apply NoDup_nil_2.
  - apply NoDup_nil_2.
  - intros botId e Hget. discriminate.
Qed.

Lemma invariant_perform e s : invariant s → invariant (perform e s).
Proof. intros [H1 H2 H4]. by split. Qed.

Lemma invariant_with_dirs d s : invariant s → invariant (with_dirs d s).
Proof. intros [H1 H2 H4]. by split. Qed.

Lemma invariant_with_sockets l s : invariant s → invariant (with_sockets l s).
Proof. intros [H1 H2 H4]. by split. Qed.

Lemma invariant_setTimeout cb delay s :
  invariant s → invariant (setTimeout cb delay s).
Proof.
  intros [H1 H2 H4]. split; simpl; [done|done|].
  intros botId e Hget. apply elem_of_app. left. auto.
Qed.

Lemma invariant_delete_pairing botId s :
  invariant s →
  invariant (with_pairingCodes (JSMap.delete botId (pairingCodes s)) s).
Proof.
  intros [H1 H2 H4]. split; simpl; [done| |].
  - by apply wf_delete.
  - intros b e Hget. apply get_delete_Some in Hget as [_ Hget]; auto.
Qed.

Lemma invariant_delete_socket botId s :
  invariant s →
  invariant (with_activeSockets (JSMap.delete botId (activeSockets s)) s).
Proof.
  intros [H1 H2 H4]. split; simpl; [|done|done].
  by apply wf_delete.
Qed.

Lemma invariant_create botId phoneNumber env s :
  invariant s →
  invariant (snd (createBotSessionWithPairing botId phoneNumber env s)).
Proof.
  intros Hinv. unfold createBotSessionWithPairing.
  destruct (lib env); simpl; [done|by apply invariant_with_dirs|].
  destruct Hinv as [H1 H2 H4].
  destruct (registered env); simpl.
  - split; simpl; [by apply wf_set|done|done].
  - split; simpl.
    + by apply wf_set.
    + by apply wf_set.
    + intros b e Hget. apply elem_of_app.
      destruct (decide (botId = b)) as [->|Hne].
      * rewrite get_set_eq in Hget. injection Hget as <-. simpl.
        right. by apply list_elem_of_singleton.
      * rewrite get_set_ne in Hget by done. left. auto.
Qed.

Lemma invariant_expirePairing botId s :
  invariant s → invariant (expirePairing botId s).
Proof.
  intros Hinv. unfold expirePairing.
  destruct (JSMap.has botId (pairingCodes s)); [|done].
  by apply invariant_delete_pairing.
Qed.

(** A state transformer that leaves everything but the effects alone. *)
Lemma verifyPairingCode_state botId c native s :
  ∃ l, snd (verifyPairingCode botId c native s)
       = with_effects (effects s ++ l) s.
Proof.
  unfold verifyPairingCode.
  destruct (JSMap.get botId (pairingCodes s)) as [pd|]; simpl.
  - destruct (negb _); simpl.
    + exists []. rewrite app_nil_r. by destruct s.
    + eexists [_]. by destruct native.
  - exists []. rewrite app_nil_r. by destruct s.
Qed.

Lemma invariant_with_effects l s : invariant s → invariant (with_effects l s).
Proof. intros [H1 H2 H4]. by split. Qed.

Lemma invariant_verify botId c native s :
  invariant s → invariant (snd (verifyPairingCode botId c native s)).
Proof.
  intros Hinv. destruct (verifyPairingCode_state botId c native s) as [l ->].
  by apply invariant_with_effects.
Qed.

Lemma postGenerate_state req env s :
  snd (postGenerate req env s) = s ∨
  ∃ botId phoneNumber,
    snd (postGenerate req env s)
    = snd (createBotSessionWithPairing botId phoneNumber env s).
Proof.
  unfold postGenerate.
  destruct (_ || _); [by left|].
  destruct (_ <? _)%nat; [by left|].
  change (bound "createBotSessionWithPairing") with true. cbv iota.
  right.
  exists (from_field (gen_botId req)),
    ("+" +:+ JS.replace_non_digits (from_field (gen_phoneNumber req))).
  destruct (createBotSessionWithPairing _ _ env s) as [[?|] ?];
    reflexivity.
Qed.

Lemma postVerify_state req native s :
  snd (postVerify req native s) = s ∨
  ∃ botId c,
    snd (postVerify req native s)
    = snd (verifyPairingCode botId c native s).
Proof.
  unfold postVerify.
  destruct (_ || _); [by left|].
  destruct (negb _); [by left|].
  change (bound "verifyPairingCode") with true. cbv iota.
  right.
  exists (from_field (ver_botId req)), (from_field (ver_code req)).
  destruct (verifyPairingCode _ _ native s) as [r s'].
  destruct (success r); reflexivity.
Qed.

Lemma invariant_onConnectionUpdate sock u s :
  invariant s → invariant (onConnectionUpdate sock u s).
Proof.
  intros Hinv. unfold onConnectionUpdate.
  destruct (sockets s !! sock) as [so|]; [|done].
  destruct (connection_of u) as [[| |]|]; try done.
  - by apply invariant_perform, invariant_delete_pairing.
  - destruct (shouldReconnect u).
    + by apply invariant_setTimeout.
    + by apply invariant_delete_socket, invariant_delete_pairing.
Qed.

Lemma invariant_attachUser sock u s :
  invariant s → invariant (attachUser sock u s).
Proof.
  intros Hinv. unfold attachUser.
  destruct (sockets s !! sock); [|done].
  by apply invariant_with_sockets.
Qed.

Lemma elem_of_delete_other {A} (x y : A) (i : nat) (l : list A) :
  x ∈ l → l !! i = Some y → x ≠ y → x ∈ delete i l.
Proof.
  revert i. induction l as [|z l IH]; intros i Hx Hi Hne.
  - by apply not_elem_of_nil in Hx.
  - destruct i as [|i]; simpl in *.
    + injection Hi as ->. apply elem_of_cons in Hx as [->|Hx]; done.
    + apply elem_of_cons in Hx as [->|Hx].
      * apply list_elem_of_here.
      * apply list_elem_of_further. by apply IH.
Qed.

Lemma forallb_elem_of {A} (f : A → bool) (l : list A) :
  forallb f l = true ↔ ∀ x, x ∈ l → f x = true.
Proof.
  rewrite forallb_forall. split; intros H x Hx; apply H.
  - by apply list_elem_of_In.
  - by apply list_elem_of_In.
Qed.

Lemma invariant_fire i env s s' :
  invariant s → fire i env s = Some s' → invariant s'.
Proof.
  intros Hinv. unfold fire.
  destruct (timers s !! i) as [t|] eqn:Hi; [|done].
  destruct (due t <=? now s); [|done]. intros [= <-].
  destruct Hinv as [H1 H2 H4].
  destruct t as [d [b|b p]]; simpl.
  - (* an expiry closure: afterwards the table has no entry for b *)
    unfold expirePairing. simpl.
    destruct (JSMap.has b (pairingCodes s)) eqn:Hhas; split; simpl;
      try done; try (by apply wf_delete).
    + intros b' e Hget. apply get_delete_Some in Hget as [Hne Hget]; [|done].
      eapply elem_of_delete_other; [by apply H4|done|congruence].
    + intros b' e Hget.
      eapply elem_of_delete_other; [by apply H4|done|].
      intros [= _ ->]. unfold JSMap.has in Hhas. by rewrite Hget in Hhas.
  - (* a reconnect closure *)
    apply invariant_create. split; simpl; [done|done|].
    intros b' e Hget.
    eapply elem_of_delete_other; [by apply H4|done|congruence].
Qed.

Lemma invariant_tick t s s' :
  invariant s → tick t s = Some s' → invariant s'.
Proof.
  intros [H1 H2 H4]. unfold tick.
  destruct (now s <=? t); [|done]. intros [= <-]. by split.
Qed.

Lemma invariant_step e s s' :
  invariant s → step e s = Some s' → invariant s'.
Proof.
  intros Hinv. destruct e; simpl.
  - intros [= <-]. by apply invariant_create.
  - intros [= <-]. by apply invariant_verify.
  - intros [= <-].
    destruct (postGenerate_state req env s) as [->|(b & p & ->)];
      [done|by apply invariant_create].
  - intros [= <-].
    destruct (postVerify_state req native s) as [->|(b & c & ->)];
      [done|by apply invariant_verify].
  - intros [= <-]. by apply invariant_onConnectionUpdate.
  - intros [= <-]. by apply invariant_attachUser.
  - by apply invariant_fire.
  - by apply invariant_tick.
Qed.

Lemma invariant_exec evs : ∀ s s',
  invariant s → exec evs s = Some s' → invariant s'.
Proof.
  induction evs as [|e evs IH]; intros s s' Hinv; simpl.
  - by intros [= <-].
  - destruct (step e s) as [s1|] eqn:Hstep; [|done].
    apply IH. by eapply invariant_step.
Qed.

Lemma invariant_reachable s : reachable s → invariant s.
Proof.
  intros [evs Hexec]. eapply invariant_exec; [|done].
  apply invariant_initial.
Qed.

(** In a quiescent state every pairing entry is younger than [TTL]. *)
Lemma quiescent_young s botId e :
  invariant s → quiescent s = true →
  JSMap.get botId (pairingCodes s) = Some e →
  now s < createdAt e + TTL.
Proof.
  intros Hinv Hq Hget. unfold quiescent in Hq.
  pose proof (inv_expiry s Hinv botId e Hget) as Htm.
  apply (proj1 (forallb_elem_of _ _) Hq) in Htm.
  by apply Z.ltb_lt in Htm.
Qed.

End EventLoopFacts.


Module Binary64Facts.
Import Binary64.
Local Open Scope Q_scope.

Lemma pow2_pos k : 0 < 2 ^ k.
Proof. by apply Qpower_0_lt. Qed.

Lemma pow2_plus a b : 2 ^ (a + b) == 2 ^ a * 2 ^ b.
Proof. by apply Qpower_plus. Qed.


Lemma pow2_Z k : (0 <= k)%Z -> 2 ^ k == inject_Z (2 ^ k).
Proof. intros Hk. by rewrite Zpower_Qpower. Qed.

Lemma pow2_le a b : (a <= b)%Z -> 2 ^ a <= 2 ^ b.
Proof. intros Hab. by apply Qpower_le_compat_l. Qed.

Lemma pow2_lt_inv a b : 2 ^ a < 2 ^ b -> (a < b)%Z.
Proof. intros Hab. by eapply Qpower_lt_compat_l_inv. Qed.

Lemma pow2_succ a : 2 ^ (a + 1) == 2 * 2 ^ a.
Proof. rewrite pow2_plus. change (2 ^ 1) with 2. ring. Qed.


Lemma log2_bounds (n : Z) :
  (0 < n)%Z ->
  2 ^ Z.log2 n <= inject_Z n /\ inject_Z n < 2 * 2 ^ Z.log2 n.
Proof.
  intros Hn. destruct (Z.log2_spec n Hn) as [Hlo Hhi].
  pose proof (Z.log2_nonneg n) as H0.
  rewrite <- pow2_succ, !pow2_Z by lia.
  split; [by rewrite <- Zle_Qle|by rewrite <- Zlt_Qlt].
Qed.

Lemma raw_exponent_bounds x :
  0 < x ->
  2 ^ 51 < x * 2 ^ (- (Z.log2 (Qnum x) - Z.log2 (Zpos (Qden x)) - 52))
  /\ x * 2 ^ (- (Z.log2 (Qnum x) - Z.log2 (Zpos (Qden x)) - 52)) < 2 ^ 53.
Proof.
  intros Hx. destruct x as [p q]. cbn [Qnum Qden].
  assert (Hp : (0 < p)%Z).
  { unfold Qlt in Hx. simpl in Hx. lia. }
  destruct (log2_bounds p Hp) as [Hp1 Hp2].
  destruct (log2_bounds (Zpos q) eq_refl) as [Hq1 Hq2].
  set (A := Z.log2 p) in *. set (B := Z.log2 (Zpos q)) in *.
  assert (Hpq : (p # q) * inject_Z (Zpos q) == inject_Z p).
  { rewrite (Qmake_Qdiv p q). field. discriminate. }
  assert (Hd : 2 ^ (- (A - B - 52)) * 2 ^ A == 2 ^ B * 2 ^ 52).
  { rewrite <- !pow2_plus. f_equiv. lia. }
  pose proof (pow2_pos A) as HA. pose proof (pow2_pos B) as HB.
  pose proof (pow2_pos (- (A - B - 52))) as HD.
  set (x := p # q) in *. set (D := 2 ^ (- (A - B - 52))) in *.
  set (PA := 2 ^ A) in *. set (PB := 2 ^ B) in *.
  set (ip := inject_Z p) in *. set (iq := inject_Z (Zpos q)) in *.
  change (2 ^ 51) with (inject_Z (2 ^ 51)).
  change (2 ^ 53) with (inject_Z (2 ^ 53)).
  change (2 ^ 52) with (inject_Z (2 ^ 52)) in Hd.
  set (T := inject_Z (2 ^ 52)) in *.
  assert (HT1 : inject_Z (2 ^ 51) * 2 == T) by reflexivity.
  assert (HT2 : inject_Z (2 ^ 53) == 2 * T) by reflexivity.
  assert (HT : 0 < T) by reflexivity.
  rewrite HT2. clearbody x D PA PB ip iq T.
  assert (Hv : (x * D) * PA == (x * PB) * T).
  { rewrite <- Qmult_assoc, Hd. ring. }
  assert (H1 : x * PB <= ip).
  { rewrite <- Hpq. apply Qmult_le_l; [done|done]. }
  assert (H2 : ip < x * (2 * PB)).
  { rewrite <- Hpq. apply Qmult_lt_l; [done|done]. }
  split.
  - apply (Qmult_lt_r _ _ (2 * PA)); [lra|].
    assert (E1 : x * D * (2 * PA) == x * (2 * PB) * T).
    { transitivity (2 * (x * D * PA)); [ring|]. rewrite Hv. ring. }
    assert (E2 : inject_Z (2 ^ 51) * (2 * PA) == PA * T)
      by (rewrite <- HT1; ring).
    rewrite E1, E2. apply Qmult_lt_r; [done|]. lra.
  - apply (Qmult_lt_r _ _ PA); [done|]. rewrite Hv.
    assert (E3 : 2 * T * PA == 2 * PA * T) by ring.
    rewrite E3. apply Qmult_lt_r; [done|]. lra.
Qed.

(** The last place of a positive number. *)
Lemma ulp_exponent_spec x :
  0 < x ->
  (-1074 <= ulp_exponent x)%Z
  /\ x * 2 ^ (- ulp_exponent x) < 2 ^ 53
  /\ (ulp_exponent x = (-1074)%Z \/ 2 ^ 52 <= x * 2 ^ (- ulp_exponent x)).
Proof.
  intros Hx. unfold ulp_exponent.
  destruct (raw_exponent_bounds x Hx) as [Hlo Hhi].
  set (d := (Z.log2 (Qnum x) - Z.log2 (Zpos (Qden x)) - 52)%Z) in *.
  set (e := if Qle_bool (2 ^ 52) (x * 2 ^ (- d)) then d else (d - 1)%Z).
  assert (He : x * 2 ^ (- e) < 2 ^ 53 /\ 2 ^ 52 <= x * 2 ^ (- e)).
  { unfold e. destruct (Qle_bool (2 ^ 52) (x * 2 ^ (- d))) eqn:Htest.
    - apply Qle_bool_iff in Htest. by split.
    - assert (Hlt : x * 2 ^ (- d) < 2 ^ 52).
      { apply Qnot_le_lt. intros Hle. apply Qle_bool_iff in Hle. congruence. }
      assert (E : 2 ^ (- (d - 1)) == 2 * 2 ^ (- d)).
      { rewrite <- pow2_succ. f_equiv. lia. }
      rewrite E.
      change (2 ^ 53) with (2 * 2 ^ 52). change (2 ^ 52) with (2 * 2 ^ 51) at 2.
      split.
      + assert (E' : x * (2 * 2 ^ (- d)) == 2 * (x * 2 ^ (- d))) by ring.
        rewrite E'. lra.
      + assert (E' : x * (2 * 2 ^ (- d)) == 2 * (x * 2 ^ (- d))) by ring.
        rewrite E'. lra. }
  clearbody e. destruct He as [He1 He2].
  destruct (Z.max_spec e (-1074)) as [[Hlt ->]|[Hge ->]].
  - split; [lia|]. split; [|by left].
    assert (E : x * 2 ^ (- -1074) == x * 2 ^ (- e) * 2 ^ (e + 1074)).
    { rewrite <- Qmult_assoc, <- pow2_plus. f_equiv. f_equiv. lia. }
    rewrite E.
    assert (H1 : 2 ^ (e + 1074) <= 1).
    { change 1 with (2 ^ 0). apply pow2_le. lia. }
    pose proof (pow2_pos (e + 1074)) as H2.
    pose proof (pow2_pos (- e)) as H3.
    apply Qle_lt_trans with (x * 2 ^ (- e) * 1); [|lra].
    apply Qmult_le_l; [|done].
    apply Qlt_le_trans with (2 ^ 52); [reflexivity|done].
  - split; [lia|]. split; [done|by right].
Qed.

Lemma ulp_exponent_le x E :
  0 < x -> x < 2 ^ (E + 53) -> (-1074 <= E)%Z -> (ulp_exponent x <= E)%Z.
Proof.
  intros Hx Hlt HE.
  destruct (ulp_exponent_spec x Hx) as (_ & _ & [-> | Hn]); [done|].
  set (e := ulp_exponent x) in *. clearbody e.
  assert (H : 2 ^ 52 < 2 ^ (E + 53 - e)).
  { apply Qle_lt_trans with (x * 2 ^ (- e)); [done|].
    assert (Eq : 2 ^ (E + 53 - e) == 2 ^ (E + 53) * 2 ^ (- e)).
    { rewrite <- pow2_plus. f_equiv; lia. }
    rewrite Eq. apply Qmult_lt_r; [apply pow2_pos|done]. }
  apply pow2_lt_inv in H. lia.
Qed.






End Binary64Facts.

(* ===================================================================== *)
(** ** The pairing code *)
(* ===================================================================== *)

Module PairingCodeFacts.
Import BotService Binary64 Binary64Facts.

Local Open Scope Q_scope.

Lemma Qnum_pos (x : Q) p : Qnum x = Zpos p -> 0 < x.
Proof. destruct x as [n d]. simpl. intros ->. reflexivity. Qed.





(** A multiple of [2 ^ -53] in [0, 1) is a binary64, and stands for
    itself. *)
Lemma round_down_exact (m : Z) :
  (0 <= m < 2 ^ 53)%Z ->
  round_down (inject_Z m * 2 ^ (-53)) == inject_Z m * 2 ^ (-53).
Proof.
  intros [Hm0 Hm1]. unfold round_down.
  destruct (Qnum (inject_Z m * 2 ^ (-53))) as [|p|p] eqn:Hnum.
  - destruct m; [reflexivity|discriminate|lia].
  - pose proof (Qnum_pos _ p Hnum) as Hx.
    assert (Hm : (0 < m)%Z) by (destruct m; [discriminate|lia|lia]).
    set (x := inject_Z m * 2 ^ (-53)) in *.
    assert (Hx1 : x < 2 ^ (-53 + 53)).
    { change (2 ^ (-53 + 53)) with 1. unfold x.
      change (2 ^ (-53)) with (1 # 9007199254740992).
      assert (H : inject_Z m < inject_Z (2 ^ 53)) by (by rewrite <- Zlt_Qlt).
      change (inject_Z (2 ^ 53)) with 9007199254740992 in H. lra. }
    assert (He : (ulp_exponent x <= -53)%Z)
      by (apply ulp_exponent_le; [done|done|lia]).
    unfold to_last_place. set (e := ulp_exponent x) in *. clearbody e.
    assert (Hint : x * 2 ^ (- e) == inject_Z (m * 2 ^ (-53 - e))).
    { unfold x. rewrite inject_Z_mult, <- pow2_Z by lia.
      rewrite <- Qmult_assoc, <- pow2_plus.
      replace (-53 + - e)%Z with (-53 - e)%Z by lia. reflexivity. }
    rewrite Hint, Qfloor_Z, inject_Z_mult, <- pow2_Z by lia.
    rewrite <- Qmult_assoc, <- pow2_plus.
    replace (-53 - e + e)%Z with (-53)%Z by lia. reflexivity.
  - destruct m; [discriminate|discriminate|lia].
Qed.

Local Close Scope Q_scope.

(** Rounding matters: for this value of [Math.random()], a binary64, the
    sum is rounded up to 10379718, while the exact value of
    [10000000 + r * 90000000] lies below it. *)
Lemma pairingNumber_rounds :
  pairingNumber (19001087147843 # 4503599627370496) = 10379718
  ∧ Qfloor (10000000 + (19001087147843 # 4503599627370496) * 90000000)
    = 10379717.
Proof. split; vm_compute; reflexivity. Qed.



End PairingCodeFacts.

(* ===================================================================== *)
(** ** Properties of the specification *)
(* ===================================================================== *)

Import BotService PairRoutes EventLoop.

(** C9. Stripping the non-digit characters of a phone number is
    idempotent; ["+1 (555) 123-4567"] becomes ["15551234567"], which has
    11 digits and passes the length check of the generate route; and a
    request whose phone number keeps fewer than 10 digits is answered
    with status 400, without touching the state. *)
Theorem phone_normalization_idempotent :
  (∀ phoneNumber,
      JS.replace_non_digits (JS.replace_non_digits phoneNumber)
      = JS.replace_non_digits phoneNumber)
  ∧ JS.replace_non_digits "+1 (555) 123-4567" = "15551234567"
  ∧ String.length (JS.replace_non_digits "+1 (555) 123-4567") = 11%nat
  ∧ (String.length (JS.replace_non_digits "+1 (555) 123-4567") <? 10)%nat
    = false
  ∧ (∀ req env s,
        (String.length
           (JS.replace_non_digits (from_field (gen_phoneNumber req))) < 10)%nat →
        http_status (fst (postGenerate req env s)) = 400
        ∧ resp_success (fst (postGenerate req env s)) = false
        ∧ snd (postGenerate req env s) = s).
Proof.
  split_and!; try reflexivity.
  - intros phoneNumber. apply JSFacts.replace_non_digits_fixed.
    apply JSFacts.all_digits_replace_non_digits.
  - intros req env s Hshort. unfold postGenerate.
    destruct (_ || _); [done|].
    apply Nat.ltb_lt in Hshort. by rewrite Hshort.
Qed.

(** C3. The status route never answers 200: [getBotStatus] is not among
    the names the routes module takes from the bot service, so the call
    in the handler raises a ReferenceError, which its [catch] turns into
    status 500 with [success: false]. *)
Theorem status_route_fails :
  ∀ botId s,
    getStatus botId s
    = {| http_status := 500; resp_success := false;
         body := Message "Failed to get bot status" |}.
Proof. intros botId s. reflexivity. Qed.

(** C10. [getBotStatus] reports ["connected"] and [online: true] exactly
    when the registry holds a socket for the bot id, and ["disconnected"]
    and [online: false] otherwise; the user field plays no part, so a
    session that has just been created and is not yet authenticated is
    reported as connected, with no user. *)
Theorem status_tracks_registry :
  ∀ s botId,
    (status (getBotStatus botId s) = "connected"
     ∧ online (getBotStatus botId s) = true
     ↔ is_Some (JSMap.get botId (activeSockets s)))
    ∧ (status (getBotStatus botId s) = "disconnected"
       ∧ online (getBotStatus botId s) = false
       ↔ JSMap.get botId (activeSockets s) = None)
    ∧ (∀ phoneNumber r,
          getBotStatus botId
            (snd (createBotSessionWithPairing botId phoneNumber
                    (Scenario.fresh r) s))
          = {| status := "connected"; online := true;
               status_user := None; lastSeen := now s |}).
Proof.
  intros s botId. split_and!.
  - unfold getBotStatus. simpl.
    destruct (JSMap.get botId (activeSockets s)); simpl.
    + split; [by eexists|done].
    + split; [by intros [[=] _]|by intros [? [=]]].
  - unfold getBotStatus. simpl.
    destruct (JSMap.get botId (activeSockets s)); simpl.
    + split; [by intros [[=] _]|done].
    + done.
  - intros phoneNumber r. unfold getBotStatus. simpl.
    rewrite JSMapFacts.get_set_eq. simpl.
    rewrite lookup_app_r by done. by rewrite Nat.sub_diag.
Qed.

(** C7. Against a live pairing entry, a verification with a code that
    differs from the stored one answers ["Invalid pairing code"] and
    returns the state as it was: the pairing table, the registry and
    everything else are untouched, no native request is made, and a retry
    with the stored code still goes through. *)
Theorem verify_mismatch_changes_nothing :
  ∀ s botId pairingData submitted native,
    JSMap.get botId (pairingCodes s) = Some pairingData →
    submitted ≠ code pairingData →
    verifyPairingCode botId submitted native s
    = ({| success := false; message := "Invalid pairing code" |}, s)
    ∧ fst (verifyPairingCode botId (code pairingData) None
             (snd (verifyPairingCode botId submitted native s)))
      = {| success := true; message := "Pairing successful" |}.
Proof.
  intros s botId pd submitted native Hget Hne.
  assert (Hfail : verifyPairingCode botId submitted native s
                  = ({| success := false;
                        message := "Invalid pairing code" |}, s)).
  { unfold verifyPairingCode. rewrite Hget.
    destruct (String.eqb_spec (code pd) submitted); [congruence|done]. }
  split; [done|]. rewrite Hfail. simpl.
  unfold verifyPairingCode. rewrite Hget.
  by rewrite String.eqb_refl.
Qed.

Lemma verify_mismatch_changes_nothing_witness :
  verifyPairingCode "b1" "00000000" None Scenario.pending_b1
  = ({| success := false; message := "Invalid pairing code" |},
     Scenario.pending_b1)
  ∧ fst (verifyPairingCode "b1" "55000000" None
           (snd (verifyPairingCode "b1" "00000000" None Scenario.pending_b1)))
    = {| success := true; message := "Pairing successful" |}.
Proof.
  apply (verify_mismatch_changes_nothing Scenario.pending_b1 "b1"
           {| code := "55000000"; socket := 0;
              phoneNumber := "+1555010022"; createdAt := 0 |}
           "00000000" None).
  - reflexivity.
  - simpl. discriminate.
Defined.

(** Verification against a bot id without a pairing entry. *)
Lemma verify_absent botId submitted native s :
  JSMap.get botId (pairingCodes s) = None →
  verifyPairingCode botId submitted native s
  = ({| success := false; message := "Pairing code expired or invalid" |}, s).
Proof. intros Hget. unfold verifyPairingCode. by rewrite Hget. Qed.

(** The three places where the service deletes a pairing entry. *)
Lemma open_removes_entry sock so s :
  JSMap.wf (pairingCodes s) → sockets s !! sock = Some so →
  JSMap.get (sock_botId so)
    (pairingCodes (onConnectionUpdate sock Scenario.opened s)) = None.
Proof.
  intros Hwf Hso. unfold onConnectionUpdate. rewrite Hso. simpl.
  by apply JSMapFacts.get_delete_eq.
Qed.

Lemma logout_removes_entry sock so s :
  JSMap.wf (pairingCodes s) → sockets s !! sock = Some so →
  JSMap.get (sock_botId so)
    (pairingCodes (onConnectionUpdate sock Scenario.logout s)) = None.
Proof.
  intros Hwf Hso. unfold onConnectionUpdate. rewrite Hso. simpl.
  by apply JSMapFacts.get_delete_eq.
Qed.

Lemma expiry_removes_entry botId s :
  JSMap.wf (pairingCodes s) →
  JSMap.get botId (pairingCodes (expirePairing botId s)) = None.
Proof.
  intros Hwf. unfold expirePairing, JSMap.has.
  destruct (JSMap.get botId (pairingCodes s)) eqn:Hget; simpl; [|done].
  by apply JSMapFacts.get_delete_eq.
Qed.

(** C1, as the code has it. Against a live pairing entry, a verification
    with the stored code makes the native pairing request and, when that
    request resolves, succeeds; it leaves the entry in the table, so a
    second verification with the same code makes the request again and
    succeeds again. The entry goes when the connection of the bot opens,
    when it is closed as logged out, or when an expiry callback runs;
    from then on verification answers ["Pairing code expired or invalid"],
    which the route sends with status 400. *)
Theorem verify_correct_code_keeps_entry :
  ∀ s botId pairingData,
    JSMap.wf (pairingCodes s) →
    JSMap.get botId (pairingCodes s) = Some pairingData →
    let request :=
      RequestPairingCode (socket pairingData)
        (JS.replace_first_plus (phoneNumber pairingData)) in
    verifyPairingCode botId (code pairingData) None s
    = ({| success := true; message := "Pairing successful" |},
       perform request s)
    ∧ JSMap.get botId (pairingCodes (perform request s)) = Some pairingData
    ∧ verifyPairingCode botId (code pairingData) None (perform request s)
      = ({| success := true; message := "Pairing successful" |},
         perform request (perform request s))
    ∧ (∀ s' sock so,
          sockets s !! sock = Some so → sock_botId so = botId →
          s' = onConnectionUpdate sock Scenario.opened (perform request s)
          ∨ s' = onConnectionUpdate sock Scenario.logout (perform request s)
          ∨ s' = expirePairing botId (perform request s) →
          ∀ native,
            verifyPairingCode botId (code pairingData) native s'
            = ({| success := false;
                  message := "Pairing code expired or invalid" |}, s')
            ∧ (botId ≠ "" → JS.is_eight_digits (code pairingData) = true →
               fst (postVerify {| ver_botId := Some botId;
                                  ver_code := Some (code pairingData) |}
                      native s')
               = {| http_status := 400; resp_success := false;
                    body := Message "Pairing code expired or invalid" |})).
Proof.
  intros s botId pd Hwf Hget request.
  assert (Hok : ∀ s0, JSMap.get botId (pairingCodes s0) = Some pd →
                verifyPairingCode botId (code pd) None s0
                = ({| success := true; message := "Pairing successful" |},
                   perform request s0)).
  { intros s0 H0. unfold verifyPairingCode. rewrite H0.
    by rewrite String.eqb_refl. }
  split_and!; [by apply Hok|done|by apply Hok|].
  intros s' sock so Hso Hbot Hs' native.
  assert (Hgone : JSMap.get botId (pairingCodes s') = None).
  { destruct Hs' as [->|[->| ->]].
    - rewrite <- Hbot. by apply open_removes_entry.
    - rewrite <- Hbot. by apply logout_removes_entry.
    - by apply expiry_removes_entry. }
  split; [by apply verify_absent|].
  intros Hbot' Hfmt. unfold postVerify. simpl.
  destruct (String.eqb_spec botId ""); [done|]. simpl.
  destruct (String.eqb_spec (code pd) "") as [Hempty|_].
  { rewrite Hempty in Hfmt. discriminate. }
  simpl. rewrite Hfmt. simpl.
  change (bound "verifyPairingCode") with true. cbv iota.
  by rewrite verify_absent.
Qed.

Lemma verify_correct_code_keeps_entry_witness :
  verifyPairingCode "b1" "55000000" None Scenario.pending_b1
  = ({| success := true; message := "Pairing successful" |},
     perform (RequestPairingCode 0 "1555010022") Scenario.pending_b1)
  ∧ JSMap.get "b1"
      (pairingCodes
         (perform (RequestPairingCode 0 "1555010022") Scenario.pending_b1))
    = Some {| code := "55000000"; socket := 0;
              phoneNumber := "+1555010022"; createdAt := 0 |}.
Proof.
  pose proof (verify_correct_code_keeps_entry Scenario.pending_b1 "b1"
                {| code := "55000000"; socket := 0;
                   phoneNumber := "+1555010022"; createdAt := 0 |}) as H.
  destruct H as (H1 & H2 & _).
  - apply NoDup_singleton.
  - reflexivity.
  - split; [exact H1|exact H2].
Defined.

(** C1, as the specification states it, fails: after a successful
    verification for b1 the entry is still there, and a second request
    with the same code is answered with status 200 after a second native
    pairing request. *)
Lemma second_verification_succeeds_again :
  fst (postVerify (Scenario.verify_b1 "55000000") None Scenario.pending_b1)
  = {| http_status := 200; resp_success := true;
       body := Message "✅ Bot connected successfully!" |}
  ∧ fst (postVerify (Scenario.verify_b1 "55000000") None
           (snd (postVerify (Scenario.verify_b1 "55000000") None
                   Scenario.pending_b1)))
    = {| http_status := 200; resp_success := true;
         body := Message "✅ Bot connected successfully!" |}
  ∧ effects
      (snd (postVerify (Scenario.verify_b1 "55000000") None
              (snd (postVerify (Scenario.verify_b1 "55000000") None
                      Scenario.pending_b1))))
    = [ RequestPairingCode 0 "1555010022";
        RequestPairingCode 0 "1555010022" ]
  ∧ JSMap.get "b1"
      (pairingCodes
         (snd (postVerify (Scenario.verify_b1 "55000000") None
                 (snd (postVerify (Scenario.verify_b1 "55000000") None
                         Scenario.pending_b1)))))
    = Some {| code := "55000000"; socket := 0;
              phoneNumber := "+1555010022"; createdAt := 0 |}.
Proof. split_and!; reflexivity. Qed.




(** The listener of the bot service never touches the file system. *)
Lemma onConnectionUpdate_dirs sock u s :
  dirs (onConnectionUpdate sock u s) = dirs s.
Proof.
  unfold onConnectionUpdate.
  destruct (sockets s !! sock); [|done].
  destruct (connection_of u) as [[| |]|]; try done.
  by destruct (shouldReconnect u).
Qed.

(** C2. On a closure with status 401 the listener of the bot service
    deletes the pairing entry and the registry entry of the bot and
    schedules no reconnect, and the status of the bot reads
    ["disconnected"]; but it leaves the credential directory of the bot in
    place, for b2 and for every bot, whereas the listener of the session
    manager removes its session directory on the same event. *)
Theorem logout_keeps_credential_directory :
  JSMap.get "b2"
    (pairingCodes (onConnectionUpdate 0 Scenario.logout Scenario.pending_b2))
  = None
  ∧ JSMap.get "b2"
      (activeSockets (onConnectionUpdate 0 Scenario.logout Scenario.pending_b2))
    = None
  ∧ timers (onConnectionUpdate 0 Scenario.logout Scenario.pending_b2)
    = timers Scenario.pending_b2
  ∧ status (getBotStatus "b2"
              (onConnectionUpdate 0 Scenario.logout Scenario.pending_b2))
    = "disconnected"
  ∧ sessionPath "b2" ∈ dirs Scenario.pending_b2
  ∧ sessionPath "b2"
      ∈ dirs (onConnectionUpdate 0 Scenario.logout Scenario.pending_b2)
  ∧ (∀ sock u s, dirs (onConnectionUpdate sock u s) = dirs s)
  ∧ SessionManager.SESSION_DIR ∈ SessionManager.dirs Scenario.default_session
  ∧ SessionManager.SESSION_DIR
      ∉ SessionManager.dirs
          (SessionManager.onClose (Some 401) Scenario.default_session).
Proof.
  assert (Hdir : sessionPath "b2" ∈ dirs Scenario.pending_b2).
  { change (dirs Scenario.pending_b2)
      with ({[ sessionPath "b2" ]} ∪ (∅ : gset string)).
    apply elem_of_union_l. by apply elem_of_singleton. }
  split_and!; try reflexivity; try exact Hdir.
  - apply onConnectionUpdate_dirs.
  - change (SessionManager.onClose (Some 401) Scenario.default_session)
      with (SessionManager.clearSession Scenario.default_session).
    unfold SessionManager.clearSession.
    rewrite bool_decide_eq_true_2 by reflexivity.
    cbn [SessionManager.dirs]. apply not_elem_of_difference. right.
    by apply elem_of_singleton.
Qed.

(** C5. The expiry callback of a superseded entry is not a no-op. Two
    sessions are created for b1, at 0 and at 300000 ms; at 600000 ms the
    table holds the second entry, five minutes old, and the first timer,
    now due, deletes it. *)
Theorem stale_expiry_deletes_newer_entry :
  exec Scenario.superseded initial = Some Scenario.superseded_state
  ∧ JSMap.get "b1" (pairingCodes Scenario.superseded_state)
    = Some {| code := "32500000"; socket := 1;
              phoneNumber := "+15550100222"; createdAt := 300000 |}
  ∧ now Scenario.superseded_state = 600000
  ∧ timers Scenario.superseded_state
    = [ {| due := 600000; run := ExpirePairing "b1" |};
        {| due := 900000; run := ExpirePairing "b1" |} ]
  ∧ (fire 0 (Scenario.fresh (1 # 2)) Scenario.superseded_state
       ≫= fun s => Some (pairingCodes s, timers s, now s))
    = Some ([], [ {| due := 900000; run := ExpirePairing "b1" |} ], 600000).
Proof. split_and!; vm_compute; reflexivity. Qed.

(** C6. In every state the event loop can reach, the pairing table holds
    at most one entry per bot id; and creating a session for a bot whose
    credentials are not registered leaves exactly one entry under its id,
    the new one, whatever entry was there before. *)
Theorem at_most_one_pairing_entry :
  ∀ s botId,
    reachable s →
    (length (JSMap.entries botId (pairingCodes s)) ≤ 1)%nat
    ∧ ∀ phoneNumber env,
        lib env = LibOk → registered env = false →
        JSMap.entries botId
          (pairingCodes
             (snd (createBotSessionWithPairing botId phoneNumber env s)))
        = [ (botId,
             {| code := generatePairingCode (random env);
                socket := length (sockets s);
                phoneNumber := phoneNumber;
                createdAt := now s |}) ].
Proof.
  intros s botId Hreach.
  pose proof (EventLoopFacts.invariant_reachable s Hreach) as Hinv.
  split.
  - apply JSMapFacts.entries_at_most_one. apply Hinv.
  - intros phoneNumber env Hlib Hreg.
    pose proof (EventLoopFacts.invariant_create botId phoneNumber env s Hinv)
      as Hinv'.
    rewrite JSMapFacts.entries_get by apply Hinv'.
    unfold createBotSessionWithPairing. rewrite Hlib, Hreg. simpl.
    by rewrite JSMapFacts.get_set_eq.
Qed.

Lemma at_most_one_pairing_entry_witness :
  (length (JSMap.entries "b1" (pairingCodes Scenario.pending_b1)) ≤ 1)%nat
  ∧ JSMap.entries "b1"
      (pairingCodes
         (snd (createBotSessionWithPairing "b1" "+1555010022"
                 (Scenario.fresh (1 # 4)) Scenario.pending_b1)))
    = [ ("b1",
         {| code := "32500000"; socket := 1;
            phoneNumber := "+1555010022"; createdAt := 0 |}) ].
Proof.
  destruct (at_most_one_pairing_entry Scenario.pending_b1 "b1") as [H1 H2].
  - exists [ Generate Scenario.generate_b1 (Scenario.fresh (1 # 2)) ].
    reflexivity.
  - split; [exact H1|].
    apply (H2 "+1555010022" (Scenario.fresh (1 # 4))); reflexivity.
Defined.

(** C8, as the code has it. Expiry is the work of a timer alone. While a
    pairing entry created at [T] is stored, a callback for its bot with
    deadline [T + 10 minutes] is pending; once the clock has reached that
    deadline the callback can run, and when it does the entry is gone and
    verification for the bot answers ["Pairing code expired or invalid"].
    Verification never looks at the age of an entry, so until the
    callback has run the entry is accepted, also at or after the
    deadline; in a state where every callback that is due has run, a
    stored entry is less than 10 minutes old. *)
Theorem expiry_callback_removes_entry :
  ∀ s botId e,
    reachable s →
    JSMap.get botId (pairingCodes s) = Some e →
    ∃ i,
      timers s !! i
      = Some {| due := createdAt e + 600000; run := ExpirePairing botId |}
      ∧ (quiescent s = true → now s < createdAt e + 600000)
      ∧ (createdAt e + 600000 ≤ now s →
         ∀ env,
           ∃ s',
             fire i env s = Some s'
             ∧ JSMap.get botId (pairingCodes s') = None
             ∧ ∀ submitted native,
                 verifyPairingCode botId submitted native s'
                 = ({| success := false;
                       message := "Pairing code expired or invalid" |}, s')).
Proof.
  intros s botId e Hreach Hget.
  pose proof (EventLoopFacts.invariant_reachable s Hreach) as Hinv.
  pose proof (inv_expiry s Hinv botId e Hget) as Htm.
  apply list_elem_of_lookup in Htm as [i Hi]. exists i.
  split_and!.
  - exact Hi.
  - intros Hq.
    pose proof (EventLoopFacts.quiescent_young s botId e Hinv Hq Hget) as H.
    exact H.
  - intros Hdue env. unfold fire. rewrite Hi. cbn [due run].
    destruct (Z.leb_spec (createdAt e + TTL) (now s)) as [_|Hlt];
      [|unfold TTL in Hlt; lia].
    eexists. split; [reflexivity|].
    cbn [runCallback].
    assert (Hgone : JSMap.get botId
                      (pairingCodes
                         (expirePairing botId
                            (with_timers (delete i (timers s)) s))) = None).
    { apply expiry_removes_entry. apply Hinv. }
    split; [exact Hgone|].
    intros submitted native. by apply verify_absent.
Qed.

Lemma expiry_callback_removes_entry_witness :
  ∃ i,
    timers Scenario2.overdue_state !! i
    = Some {| due := 600000; run := ExpirePairing "b1" |}
    ∧ ∃ s',
        fire i (Scenario.fresh (1 # 2)) Scenario2.overdue_state = Some s'
        ∧ JSMap.get "b1" (pairingCodes s') = None.
Proof.
  destruct (expiry_callback_removes_entry Scenario2.overdue_state "b1"
              {| code := "55000000"; socket := 0;
                 phoneNumber := "+15550100222"; createdAt := 0 |})
    as (i & Hi & _ & Hfire).
  - exists Scenario2.overdue. reflexivity.
  - reflexivity.
  - exists i. split; [exact Hi|].
    destruct (Hfire ltac:(vm_compute; discriminate) (Scenario.fresh (1 # 2)))
      as (s' & Hs' & Hgone & _).
    exists s'. by split.
Defined.

(** C8, as the specification states it, fails: 10 minutes after the entry
    of b1 was created, and also well after that, its expiry callback is
    still pending, the entry is stored, and a verification with its code
    succeeds. *)
Lemma entry_accepted_after_ten_minutes :
  exec Scenario2.at_deadline initial = Some Scenario2.at_deadline_state
  ∧ now Scenario2.at_deadline_state = 600000
  ∧ JSMap.get "b1" (pairingCodes Scenario2.at_deadline_state)
    = Some {| code := "55000000"; socket := 0;
              phoneNumber := "+15550100222"; createdAt := 0 |}
  ∧ fst (verifyPairingCode "b1" "55000000" None Scenario2.at_deadline_state)
    = {| success := true; message := "Pairing successful" |}
  ∧ exec Scenario2.overdue initial = Some Scenario2.overdue_state
  ∧ now Scenario2.overdue_state = 700000
  ∧ JSMap.get "b1" (pairingCodes Scenario2.overdue_state)
    = Some {| code := "55000000"; socket := 0;
              phoneNumber := "+15550100222"; createdAt := 0 |}
  ∧ fst (verifyPairingCode "b1" "55000000" None Scenario2.overdue_state)
    = {| success := true; message := "Pairing successful" |}.
Proof. split_and!; vm_compute; reflexivity. Qed.

(* ===================================================================== *)
(** ** References stay valid *)
(* ===================================================================== *)

Module ReferencesFacts.
Import BotService PairRoutes EventLoop References JSMapFacts EventLoopFacts.

Lemma linked_initial : linked initial.
Proof. split; simpl; intros; discriminate. Qed.

(** [linked] reads the two tables, the socket store, the directories
    and the clock only. *)
Lemma linked_same s s' :
  activeSockets s' = activeSockets s → pairingCodes s' = pairingCodes s →
  sockets s' = sockets s → dirs s' = dirs s → now s' = now s →
  linked s → linked s'.
Proof.
  intros H1 H2 H3 H4 H5 [L1 L2 L3 L4 L5].
  split; rewrite ?H1, ?H2, ?H3, ?H4, ?H5; done.
Qed.

Lemma linked_delete_pairing botId s :
  JSMap.wf (pairingCodes s) → linked s →
  linked (with_pairingCodes (JSMap.delete botId (pairingCodes s)) s).
Proof.
  intros Hwf [L1 L2 L3 L4 L5]. split; simpl; try done.
  - intros b e Hget. apply get_delete_Some in Hget as [_ Hget]; eauto.
  - intros b e Hget. apply get_delete_Some in Hget as [_ Hget]; eauto.
  - intros b e Hget. apply get_delete_Some in Hget as [_ Hget]; eauto.
Qed.

Lemma linked_logout botId s :
  JSMap.wf (pairingCodes s) → JSMap.wf (activeSockets s) → linked s →
  linked
    (let s1 := with_pairingCodes (JSMap.delete botId (pairingCodes s)) s in
     with_activeSockets (JSMap.delete botId (activeSockets s1)) s1).
Proof.
  intros Hwf1 Hwf2 [L1 L2 L3 L4 L5]. split; simpl.
  - intros b k Hget. apply get_delete_Some in Hget as [_ Hget]; eauto.
  - intros b e Hget. apply get_delete_Some in Hget as [_ Hget]; eauto.
  - intros b e Hget. apply get_delete_Some in Hget as [Hne Hget]; [|done].
    rewrite get_delete_ne by done. eauto.
  - intros b k Hget. apply get_delete_Some in Hget as [_ Hget]; eauto.
  - intros b e Hget. apply get_delete_Some in Hget as [_ Hget]; eauto.
Qed.

Lemma linked_create botId phoneNumber env s :
  linked s →
  linked (snd (createBotSessionWithPairing botId phoneNumber env s)).
Proof.
  intros [L1 L2 L3 L4 L5]. unfold createBotSessionWithPairing.
  destruct (lib env); simpl; [done| |].
  - split; simpl; try done.
    intros b k Hget. apply elem_of_union_r. eauto.
  - set (new := {| sock_botId := botId; sock_phoneNumber := phoneNumber;
                   sock_registered := registered env;
                   sock_user := user env |}).
    assert (Hnew : (sockets s ++ [new])%list !! length (sockets s) = Some new).
    { rewrite lookup_app_r by done. by rewrite Nat.sub_diag. }
    assert (Hreg : ∀ b k,
               JSMap.get b (JSMap.set botId (length (sockets s))
                              (activeSockets s)) = Some k →
               ∃ so, (sockets s ++ [new])%list !! k = Some so
                     ∧ sock_botId so = b).
    { intros b k Hget. destruct (decide (botId = b)) as [->|Hne].
      - rewrite get_set_eq in Hget. injection Hget as <-. by exists new.
      - rewrite get_set_ne in Hget by done.
        destruct (L1 b k Hget) as (so & Hso & Hb).
        exists so. split; [by apply lookup_app_l_Some|done]. }
    assert (Hdir : ∀ b k,
               JSMap.get b (JSMap.set botId (length (sockets s))
                              (activeSockets s)) = Some k →
               sessionPath b ∈ ({[ sessionPath botId ]} ∪ dirs s : gset string)).
    { intros b k Hget. destruct (decide (botId = b)) as [->|Hne].
      - apply elem_of_union_l. by apply elem_of_singleton.
      - rewrite get_set_ne in Hget by done. apply elem_of_union_r. eauto. }
    assert (Hold : ∀ b e,
               JSMap.get b (pairingCodes s) = Some e →
               ∃ so, (sockets s ++ [new])%list !! socket e = Some so
                     ∧ sock_botId so = b
                     ∧ sock_phoneNumber so = BotService.phoneNumber e
                     ∧ sock_registered so = false).
    { intros b e Hget. destruct (L2 b e Hget) as (so & Hso & Hrest).
      exists so. split; [by apply lookup_app_l_Some|done]. }
    assert (Hlive : ∀ b,
               is_Some (JSMap.get b (activeSockets s)) ∨ b = botId →
               is_Some (JSMap.get b (JSMap.set botId (length (sockets s))
                                       (activeSockets s)))).
    { intros b Hb. destruct (decide (botId = b)) as [->|Hne].
      - rewrite get_set_eq. by eexists.
      - rewrite get_set_ne by done. by destruct Hb. }
    destruct (registered env) eqn:Hregd; simpl.
    + split; simpl; try done.
      intros b e Hget. apply Hlive. left. eauto.
    + split; simpl; try done.
      * intros b e Hget. destruct (decide (botId = b)) as [->|Hne].
        -- rewrite get_set_eq in Hget. injection Hget as <-. simpl.
           exists new. by rewrite Hnew.
        -- rewrite get_set_ne in Hget by done. eauto.
      * intros b e Hget. apply Hlive.
        destruct (decide (botId = b)) as [->|Hne]; [by right|].
        rewrite get_set_ne in Hget by done. left. eauto.
      * intros b e Hget. destruct (decide (botId = b)) as [->|Hne].
        -- rewrite get_set_eq in Hget. by injection Hget as <-.
        -- rewrite get_set_ne in Hget by done. eauto.
Qed.

Lemma linked_onConnectionUpdate sock u s :
  invariant s → linked s → linked (onConnectionUpdate sock u s).
Proof.
  intros [I1 I2 _] Hl. unfold onConnectionUpdate.
  destruct (sockets s !! sock) as [so|]; [|done].
  destruct (connection_of u) as [[| |]|]; try done.
  - apply (linked_same
             (with_pairingCodes
                (JSMap.delete (sock_botId so) (pairingCodes s)) s));
      try done.
    by apply linked_delete_pairing.
  - destruct (shouldReconnect u).
    + by apply (linked_same s).
    + by apply linked_logout.
Qed.

Lemma linked_attachUser sock u s : linked s → linked (attachUser sock u s).
Proof.
  intros [L1 L2 L3 L4 L5]. unfold attachUser.
  destruct (sockets s !! sock) as [so0|] eqn:Hso0; [|done].
  assert (Hkeep : ∀ k so,
             sockets s !! k = Some so →
             ∃ so',
               <[ sock := {| sock_botId := sock_botId so0;
                             sock_phoneNumber := sock_phoneNumber so0;
                             sock_registered := sock_registered so0;
                             sock_user := Some u |} ]> (sockets s) !! k
               = Some so'
               ∧ sock_botId so' = sock_botId so
               ∧ sock_phoneNumber so' = sock_phoneNumber so
               ∧ sock_registered so' = sock_registered so).
  { intros k so Hso. destruct (decide (sock = k)) as [->|Hne].
    - eexists. rewrite list_lookup_insert_eq by (by eapply lookup_lt_Some).
      split; [done|]. simplify_eq. done.
    - exists so. by rewrite list_lookup_insert_ne. }
  split; simpl; try done.
  - intros b k Hget. destruct (L1 b k Hget) as (so & Hso & Hb).
    destruct (Hkeep k so Hso) as (so' & Hso' & Hb' & _).
    exists so'. split; [done|congruence].
  - intros b e Hget. destruct (L2 b e Hget) as (so & Hso & Hb & Hp & Hr).
    destruct (Hkeep _ so Hso) as (so' & Hso' & Hb' & Hp' & Hr').
    exists so'. split_and!; [done|congruence..].
Qed.

Lemma linked_step e s s' :
  invariant s → linked s → step e s = Some s' → linked s'.
Proof.
  intros Hinv Hl.
  destruct e as [b p env|b c native|req env|req native|sock u|sock u|i env|t];
    simpl.
  - intros [= <-]. by apply linked_create.
  - intros [= <-].
    destruct (verifyPairingCode_state b c native s) as [l ->].
    by apply (linked_same s).
  - intros [= <-].
    destruct (postGenerate_state req env s) as [->|(b & p & ->)];
      [done|by apply linked_create].
  - intros [= <-].
    destruct (postVerify_state req native s) as [->|(b & c & ->)]; [done|].
    destruct (verifyPairingCode_state b c native s) as [l ->].
    by apply (linked_same s).
  - intros [= <-]. by apply linked_onConnectionUpdate.
  - intros [= <-]. by apply linked_attachUser.
  - unfold fire. destruct (timers s !! i) as [tm|]; [|done].
    destruct (due tm <=? now s); [|done]. intros [= <-].
    assert (Hl' : linked (with_timers (delete i (timers s)) s))
      by (by apply (linked_same s)).
    destruct (run tm) as [b|b p]; simpl.
    + unfold expirePairing. simpl.
      destruct (JSMap.has b (pairingCodes s)); [|done].
      apply (linked_same
               (with_pairingCodes (JSMap.delete b (pairingCodes s)) s));
        try done.
      apply linked_delete_pairing; [apply Hinv|done].
    + by apply linked_create.
  - unfold tick. destruct (Z.leb_spec (now s) t) as [Hle|_]; [|done].
    intros [= <-].
    destruct Hl as [L1 L2 L3 L4 L5]. split; simpl; try done.
    intros b e Hget. specialize (L5 b e Hget). lia.
Qed.

Lemma linked_exec evs : ∀ s s',
  invariant s → linked s → exec evs s = Some s' → linked s'.
Proof.
  induction evs as [|e evs IH]; intros s s' Hinv Hl; simpl.
  - by intros [= <-].
  - destruct (step e s) as [s1|] eqn:Hstep; [|done].
    apply IH; [by eapply invariant_step|by eapply linked_step].
Qed.

Lemma linked_reachable s : reachable s → linked s.
Proof.
  intros [evs Hexec].
  eapply linked_exec; [apply invariant_initial|apply linked_initial|done].
Qed.

End ReferencesFacts.

(* ===================================================================== *)
(** ** More of the bot service and of the pairing routes *)
(* ===================================================================== *)

Module ServiceFacts.
Import BotService PairRoutes EventLoop JSMapFacts.

Lemma elem_get_wf {V} (k : string) (v : V) (m : list (string * V)) :
  JSMap.wf m → (k, v) ∈ m → JSMap.get k m = Some v.
Proof.
  unfold JSMap.wf. induction m as [|[k' v'] r IH]; simpl.
  - intros _ Hin. by apply not_elem_of_nil in Hin.
  - rewrite NoDup_cons. intros [Hk' Hr] [[= -> ->]|Hin]%elem_of_cons.
    + by rewrite String.eqb_refl.
    + destruct (String.eqb_spec k k') as [->|_]; [|auto].
      exfalso. apply Hk'. apply list_elem_of_fmap. by exists (k', v).
Qed.

Lemma connected_ids_sublist s :
  cb_botId <$> getConnectedBots s `sublist_of` JSMap.keys (activeSockets s).
Proof.
  unfold getConnectedBots, JSMap.keys.
  induction (activeSockets s) as [|[b k] r IH]; simpl; [constructor|].
  destruct (sockets s !! k ≫= sock_user); simpl.
  - by apply sublist_skip.
  - by apply sublist_cons.
Qed.

Lemma shouldReconnect_not_401 code :
  code ≠ Some 401 →
  shouldReconnect {| connection_of := Some ConnClose; statusCode := code |}
  = true.
Proof.
  intros Hcode. unfold shouldReconnect. simpl.
  destruct code as [c|]; [|done].
  destruct (Z.eqb_spec c 401); [congruence|done].
Qed.

Lemma replace_first_plus_plus x : JS.replace_first_plus ("+" +:+ x) = x.
Proof. reflexivity. Qed.


End ServiceFacts.

(* ===================================================================== *)
(** ** The pairing routes on any JSON body *)
(* ===================================================================== *)

(** A hypothesis that cannot hold. *)
Ltac refute :=
  solve [ intros;
          repeat match goal with
                 | H : _ ∧ _ |- _ => destruct H
                 | H : ∃ _, _ |- _ => destruct H
                 | H : _ ∨ _ |- _ => destruct H
                 | H : ∀ q, Json.Str ?p ≠ Json.Str q |- _ =>
                     destruct (H p eq_refl)
                 | H : ∀ q, Json.Str ?p = Json.Str q → _ |- _ =>
                     specialize (H p eq_refl)
                 end;
          simplify_eq;
          repeat match goal with
                 | H : EmptyString = _ |- _ => rewrite <- H in *
                 end;
          simpl in *;
          first [ done | lia | congruence
                | unfold JS.is_eight_digits in *; simpl in *; done ] ].

(** A conclusion that holds, with [p] for the string it asks for. *)
Ltac establish p :=
  first [ done | lia | congruence
        | split; establish p
        | exists p; establish p
        | eexists; establish p
        | left; establish p
        | right; establish p ].

(** One leaf of a handler: every part of the statement is settled by the
    branch taken. *)
Ltac answers p :=
  split_and!;
  first [ done
        | split; first [ refute | intros; establish p ]
        | refute
        | intros; establish p ].

Module PairRoutesJsonFacts.
Import BotService PairRoutes EventLoop.

(** On a body whose fields are strings or missing the handlers are the
    ones of [PairRoutes]. *)
Lemma postGenerate_strings req env s :
  PairRoutesJson.postGenerate (PairRoutesJson.generate_body req) env s
  = postGenerate req env s.
Proof.
  unfold PairRoutesJson.postGenerate, postGenerate. simpl.
  destruct (gen_botId req) as [b|]; [|reflexivity].
  destruct (gen_phoneNumber req) as [p|]; simpl.
  - reflexivity.
  - by rewrite orb_true_r.
Qed.

Lemma postVerify_strings req native s :
  PairRoutesJson.postVerify (PairRoutesJson.verify_body req) native s
  = postVerify req native s.
Proof.
  unfold PairRoutesJson.postVerify, postVerify. simpl.
  destruct (ver_botId req) as [b|]; [|reflexivity].
  destruct (ver_code req) as [c|]; simpl.
  - reflexivity.
  - by rewrite orb_true_r.
Qed.

(** A value that is no string leaves the state as it was. *)
Lemma json_generate_state req env s :
  snd (PairRoutesJson.postGenerate req env s) = s
  ∨ ∃ req', snd (PairRoutesJson.postGenerate req env s)
            = snd (postGenerate req' env s).
Proof.
  destruct (PairRoutesJson.body_phoneNumber req) as [| |b|n|p|l|ks] eqn:Hp;
    try (left; unfold PairRoutesJson.postGenerate; rewrite Hp;
         by destruct (negb _ || negb _)%bool).
  right.
  exists {| gen_botId := PairRoutesJson.body_botId req;
            gen_phoneNumber := Some p |}.
  rewrite <- postGenerate_strings. f_equal. f_equal.
  destruct req as [b v]. simpl in *. by subst.
Qed.

Lemma json_verify_state req native s :
  snd (PairRoutesJson.postVerify req native s) = s
  ∨ ∃ req', snd (PairRoutesJson.postVerify req native s)
            = snd (postVerify req' native s).
Proof.
  destruct (PairRoutesJson.body_code req) as [| |b|n|c|l|ks] eqn:Hc.
  1-4,6-7:
    left; unfold PairRoutesJson.postVerify; rewrite Hc;
    destruct (negb _ || negb _)%bool; [reflexivity|];
    destruct (Json.toStr _) as [text|]; [|reflexivity];
    destruct (negb (JS.is_eight_digits text)); [reflexivity|];
    change (bound "verifyPairingCode") with true; cbv iota;
    unfold PairRoutesJson.verifyPairingCode;
    by destruct (JSMap.get _ _).
  right.
  exists {| ver_botId := PairRoutesJson.body_verify_botId req;
            ver_code := Some c |}.
  rewrite <- postVerify_strings. f_equal. f_equal.
  destruct req as [b v]. simpl in *. by subst.
Qed.

(** So the requests with other values reach no new state. *)
Lemma postGenerate_reachable req env s :
  reachable s → reachable (snd (PairRoutesJson.postGenerate req env s)).
Proof.
  intros [evs Hevs].
  destruct (json_generate_state req env s) as [->|[req' ->]].
  - by exists evs.
  - exists (evs ++ [Generate req' env])%list.
    clear -Hevs. revert Hevs. generalize initial.
    induction evs as [|e evs IH]; simpl; intros s0.
    + by intros [= ->].
    + destruct (step e s0); [apply IH|done].
Qed.

Lemma postVerify_reachable req native s :
  reachable s → reachable (snd (PairRoutesJson.postVerify req native s)).
Proof.
  intros [evs Hevs].
  destruct (json_verify_state req native s) as [->|[req' ->]].
  - by exists evs.
  - exists (evs ++ [VerifyRequested req' native])%list.
    clear -Hevs. revert Hevs. generalize initial.
    induction evs as [|e evs IH]; simpl; intros s0.
    + by intros [= ->].
    + destruct (step e s0); [apply IH|done].
Qed.

(** A code sent as the number 55000000 matches the pattern and is then
    refused, the stored code being a string. *)
Lemma numeric_code_is_refused :
  PairRoutesJson.postVerify
    {| PairRoutesJson.body_verify_botId := Some "b1";
       PairRoutesJson.body_code := Json.Number "55000000" |}
    None Scenario.pending_b1
  = (fail 400 "Invalid pairing code", Scenario.pending_b1).
Proof. reflexivity. Qed.

(** A phone number sent as a number is answered 500. *)
Lemma numeric_phone_number_fails :
  PairRoutesJson.postGenerate
    {| PairRoutesJson.body_botId := Some "b1";
       PairRoutesJson.body_phoneNumber := Json.Number "15550100222" |}
    (Scenario.fresh (1 # 2)) initial
  = (fail 500 "Failed to generate pairing code", initial).
Proof. reflexivity. Qed.

(** A code that cannot be turned into a string is answered 500. *)
Lemma unprintable_code_fails :
  PairRoutesJson.postVerify
    {| PairRoutesJson.body_verify_botId := Some "b1";
       PairRoutesJson.body_code := Json.Object ["toString"] |}
    None Scenario.pending_b1
  = (fail 500 "Verification failed", Scenario.pending_b1).
Proof. reflexivity. Qed.

End PairRoutesJsonFacts.

(* ===================================================================== *)
(** ** Pending timers *)
(* ===================================================================== *)

Module TimerFacts.
Import BotService PairRoutes EventLoop.

Lemma appends_refl s : appends s s.
Proof. exists []. by rewrite app_nil_r. Qed.

Lemma appends_same s s' : timers s' = timers s → appends s s'.
Proof. intros H. exists []. by rewrite app_nil_r. Qed.

Lemma appends_create botId phoneNumber env s :
  appends s (snd (createBotSessionWithPairing botId phoneNumber env s)).
Proof.
  unfold createBotSessionWithPairing.
  destruct (lib env); simpl; try (by apply appends_same).
  destruct (registered env); simpl; [by apply appends_same|].
  by eexists.
Qed.

Lemma appends_verify botId c native s :
  appends s (snd (verifyPairingCode botId c native s)).
Proof.
  apply appends_same. unfold verifyPairingCode.
  destruct (JSMap.get botId (pairingCodes s)); [|done].
  destruct (negb _); [done|]. by destruct native.
Qed.

Lemma appends_onConnectionUpdate sock u s :
  appends s (onConnectionUpdate sock u s).
Proof.
  unfold onConnectionUpdate.
  destruct (sockets s !! sock); [|apply appends_refl].
  destruct (connection_of u) as [[| |]|]; try (by apply appends_same).
  destruct (shouldReconnect u); [|by apply appends_same].
  by eexists.
Qed.

Lemma appends_attachUser sock u s : appends s (attachUser sock u s).
Proof.
  apply appends_same. unfold attachUser. by destruct (sockets s !! sock).
Qed.

Lemma appends_postGenerate req env s :
  appends s (snd (postGenerate req env s)).
Proof.
  unfold postGenerate.
  destruct (negb _ || negb _)%bool; [apply appends_refl|]. cbv zeta.
  destruct (_ <? _)%nat; [apply appends_refl|].
  change (bound "createBotSessionWithPairing") with true. cbv iota.
  pose proof (appends_create (from_field (gen_botId req))
                ("+" +:+ JS.replace_non_digits
                           (from_field (gen_phoneNumber req))) env s) as H.
  by destruct (createBotSessionWithPairing _ _ _ _) as [[?|] ?].
Qed.

Lemma appends_postVerify req native s :
  appends s (snd (postVerify req native s)).
Proof.
  unfold postVerify.
  destruct (negb _ || negb _)%bool; [apply appends_refl|]. cbv zeta.
  destruct (negb (JS.is_eight_digits _)); [apply appends_refl|].
  change (bound "verifyPairingCode") with true. cbv iota.
  pose proof (appends_verify (from_field (ver_botId req))
                (from_field (ver_code req)) native s) as H.
  destruct (verifyPairingCode _ _ _ _) as [r s'].
  by destruct (success r).
Qed.

Lemma runCallback_timers cb env l s :
  ∃ added,
    timers (runCallback cb env (with_timers l s)) = (l ++ added)%list.
Proof.
  destruct cb as [botId|botId phoneNumber]; simpl.
  - exists []. rewrite app_nil_r. unfold expirePairing.
    by destruct (JSMap.has _ _).
  - apply (appends_create botId phoneNumber env (with_timers l s)).
Qed.

End TimerFacts.

(** X1. In every reachable state [getConnectedBots] lists a bot exactly
    when the registry holds a socket for it and that socket has a user,
    with that user; each bot is listed at most once, every item is
    stamped with the current time, and the route reports the list with
    its length as [total]. *)
Theorem connected_bots_are_registry_bots_with_user :
  ∀ s,
    reachable s →
    (∀ botId u,
        (∃ t, {| cb_botId := botId; cb_user := u; cb_connectedAt := t |}
              ∈ getConnectedBots s)
        ↔ ∃ sock so,
            JSMap.get botId (activeSockets s) = Some sock
            ∧ sockets s !! sock = Some so
            ∧ sock_user so = Some u)
    ∧ NoDup (cb_botId <$> getConnectedBots s)
    ∧ (∀ cb, cb ∈ getConnectedBots s → cb_connectedAt cb = now s)
    ∧ getConnected s
      = {| http_status := 200; resp_success := true;
           body := ConnectedData (length (getConnectedBots s))
                     (getConnectedBots s) |}.
Proof.
  intros s Hreach.
  pose proof (EventLoopFacts.invariant_reachable s Hreach) as [Hwf _ _].
  split_and!.
  - intros botId u. unfold getConnectedBots. split.
    + intros [t Hin]. apply list_elem_of_omap in Hin as ([b k] & Hin & Hf).
      simpl in Hf.
      destruct (sockets s !! k) as [so|] eqn:Hso; simpl in Hf; [|done].
      destruct (sock_user so) as [u'|] eqn:Hu; simpl in Hf; [|done].
      injection Hf as -> -> _.
      exists k, so. split_and!; [by apply ServiceFacts.elem_get_wf|done|done].
    + intros (k & so & Hget & Hso & Hu). exists (now s).
      apply list_elem_of_omap. exists (botId, k).
      split; [by apply JSMapFacts.get_Some_elem|].
      simpl. rewrite Hso. simpl. by rewrite Hu.
  - eapply sublist_NoDup; [exact Hwf|apply ServiceFacts.connected_ids_sublist].
  - intros cb Hin. unfold getConnectedBots in Hin.
    apply list_elem_of_omap in Hin as ([b k] & _ & Hf). simpl in Hf.
    destruct (sockets s !! k ≫= sock_user); [|done]. by injection Hf as <-.
  - reflexivity.
Qed.

Lemma connected_bots_are_registry_bots_with_user_witness :
  getConnectedBots Scenario2.two_bots_state
  = [ {| cb_botId := "b2"; cb_user := "15550100@s.whatsapp.net";
         cb_connectedAt := 0 |} ]
  ∧ NoDup (cb_botId <$> getConnectedBots Scenario2.two_bots_state).
Proof.
  destruct (connected_bots_are_registry_bots_with_user
              Scenario2.two_bots_state) as (_ & Hnd & _).
  - exists Scenario2.two_bots. reflexivity.
  - split; [reflexivity|exact Hnd].
Defined.

(** X2. A session creation that does not throw stores the new socket,
    made for this bot and phone number, under the bot id, in place of
    whatever socket was there; it leaves the registry and pairing entries
    of every other bot, the sockets made earlier, the clock and the
    effects as they were; and when the credentials are already registered
    it returns null and touches neither the pairing table nor the
    timers, so a pairing entry left from an earlier session stays. *)
Theorem create_replaces_the_handle_of_its_bot_only :
  ∀ s botId phoneNumber env,
    lib env = LibOk →
    JSMap.get botId
      (activeSockets (snd (createBotSessionWithPairing botId phoneNumber env s)))
    = Some (length (sockets s))
    ∧ sockets (snd (createBotSessionWithPairing botId phoneNumber env s))
      = (sockets s ++
           [{| sock_botId := botId; sock_phoneNumber := phoneNumber;
               sock_registered := registered env;
               sock_user := user env |}])%list
    ∧ (∀ b, b ≠ botId →
         JSMap.get b
           (activeSockets
              (snd (createBotSessionWithPairing botId phoneNumber env s)))
         = JSMap.get b (activeSockets s)
         ∧ JSMap.get b
             (pairingCodes
                (snd (createBotSessionWithPairing botId phoneNumber env s)))
           = JSMap.get b (pairingCodes s))
    ∧ now (snd (createBotSessionWithPairing botId phoneNumber env s)) = now s
    ∧ effects (snd (createBotSessionWithPairing botId phoneNumber env s))
      = effects s
    ∧ (registered env = true →
       fst (createBotSessionWithPairing botId phoneNumber env s) = Return None
       ∧ pairingCodes
           (snd (createBotSessionWithPairing botId phoneNumber env s))
         = pairingCodes s
       ∧ timers (snd (createBotSessionWithPairing botId phoneNumber env s))
         = timers s).
Proof.
  intros s botId phoneNumber env Hlib.
  unfold createBotSessionWithPairing. rewrite Hlib.
  destruct (registered env); simpl.
  - split_and!; try done.
    + apply JSMapFacts.get_set_eq.
    + intros b Hb. split; [|done]. by apply JSMapFacts.get_set_ne.
  - split_and!; try done.
    + apply JSMapFacts.get_set_eq.
    + intros b Hb. split; by apply JSMapFacts.get_set_ne.
Qed.

Lemma create_replaces_the_handle_of_its_bot_only_witness :
  JSMap.get "b1"
    (activeSockets
       (snd (createBotSessionWithPairing "b1" "+1555010022" Scenario.restored
               Scenario2.two_bots_state)))
  = Some 2%nat
  ∧ JSMap.get "b2"
      (activeSockets
         (snd (createBotSessionWithPairing "b1" "+1555010022" Scenario.restored
                 Scenario2.two_bots_state)))
    = Some 1%nat.
Proof.
  destruct (create_replaces_the_handle_of_its_bot_only
              Scenario2.two_bots_state "b1" "+1555010022" Scenario.restored)
    as (H1 & _ & H3 & _).
  - reflexivity.
  - split; [exact H1|].
    destruct (H3 "b2") as [H _]; [discriminate|]. rewrite H. reflexivity.
Defined.

(** X3. The generate route, for a body whose bot id is a string or
    missing and whose phone number is any JSON value. It answers 400
    exactly when the bot id or the phone number is falsy or the phone
    number is a string that keeps fewer than 10 digits; 500 exactly when
    both are truthy and either the phone number is no string (the call
    of [replace] throws and the service is never called, so the state
    is as it was) or it is a string with at least 10 digits and the
    protocol library throws; and 200 exactly when the bot id is truthy,
    the phone number is a string with at least 10 digits and the library
    does not throw. [success] is true exactly on 200, and a request
    answered 400 leaves the state as it was. *)
Theorem generate_status_codes :
  ∀ req env s,
    (http_status (fst (PairRoutesJson.postGenerate req env s)) = 400
     ↔ JS.truthy (PairRoutesJson.body_botId req) = false
       ∨ Json.truthy (PairRoutesJson.body_phoneNumber req) = false
       ∨ ∃ p, PairRoutesJson.body_phoneNumber req = Json.Str p
              ∧ (String.length (JS.replace_non_digits p) < 10)%nat)
    ∧ (http_status (fst (PairRoutesJson.postGenerate req env s)) = 500
       ↔ JS.truthy (PairRoutesJson.body_botId req) = true
         ∧ Json.truthy (PairRoutesJson.body_phoneNumber req) = true
         ∧ ((∀ p, PairRoutesJson.body_phoneNumber req ≠ Json.Str p)
            ∨ ∃ p, PairRoutesJson.body_phoneNumber req = Json.Str p
                   ∧ (10 ≤ String.length (JS.replace_non_digits p))%nat
                   ∧ lib env ≠ LibOk))
    ∧ (http_status (fst (PairRoutesJson.postGenerate req env s)) = 200
       ↔ JS.truthy (PairRoutesJson.body_botId req) = true
         ∧ ∃ p, PairRoutesJson.body_phoneNumber req = Json.Str p
                ∧ (10 ≤ String.length (JS.replace_non_digits p))%nat
                ∧ lib env = LibOk)
    ∧ (resp_success (fst (PairRoutesJson.postGenerate req env s)) = true
       ↔ http_status (fst (PairRoutesJson.postGenerate req env s)) = 200)
    ∧ (http_status (fst (PairRoutesJson.postGenerate req env s)) = 400 →
       snd (PairRoutesJson.postGenerate req env s) = s)
    ∧ ((∀ p, PairRoutesJson.body_phoneNumber req ≠ Json.Str p) →
       snd (PairRoutesJson.postGenerate req env s) = s).
Proof.
  intros [b v] env s. unfold PairRoutesJson.postGenerate. simpl.
  destruct (JS.truthy b) eqn:Hb; simpl; [|answers ""].
  destruct v as [| |bv|n|p|l|ks]; simpl.
  - answers "".
  - answers "".
  - destruct bv; answers "".
  - destruct (negb (String.eqb n "0")); answers "".
  - destruct (String.eqb_spec p "") as [->|Hne]; simpl; [answers ""|].
    destruct (Nat.ltb_spec (String.length (JS.replace_non_digits p)) 10)
      as [Hlt|Hge]; simpl; [answers p|].
    change (bound "createBotSessionWithPairing") with true. cbv iota.
    unfold createBotSessionWithPairing.
    destruct (lib env) eqn:Hlib; simpl; [answers p|answers p|].
    destruct (registered env); simpl; answers p.
  - answers "".
  - answers "".
Qed.

(** X4. Every closure with a status other than 401 (or with none)
    schedules one more reconnect, 5 seconds ahead, for the bot id and
    phone number of the socket; nothing bounds their number: [n] such
    events leave [n] pending reconnect timers. None of them touches the
    registry, so the status of the bot reads as before the drop. *)
Theorem every_drop_schedules_a_reconnect :
  ∀ s sock so code n,
    sockets s !! sock = Some so →
    code ≠ Some 401 →
    timers (References.repeated n sock
              {| connection_of := Some ConnClose; statusCode := code |} s)
    = (timers s ++
         replicate n
           {| due := now s + 5000;
              run := Reconnect (sock_botId so) (sock_phoneNumber so) |})%list
    ∧ activeSockets
        (References.repeated n sock
           {| connection_of := Some ConnClose; statusCode := code |} s)
      = activeSockets s
    ∧ pairingCodes
        (References.repeated n sock
           {| connection_of := Some ConnClose; statusCode := code |} s)
      = pairingCodes s
    ∧ (∀ botId,
         getBotStatus botId
           (References.repeated n sock
              {| connection_of := Some ConnClose; statusCode := code |} s)
         = getBotStatus botId s).
Proof.
  intros s sock so code n Hso Hcode.
  set (u := {| connection_of := Some ConnClose; statusCode := code |}).
  assert (Hsr : shouldReconnect u = true)
    by (by apply ServiceFacts.shouldReconnect_not_401).
  assert (Hall : timers (References.repeated n sock u s)
                 = (timers s ++
                      replicate n
                        {| due := now s + 5000;
                           run := Reconnect (sock_botId so)
                                    (sock_phoneNumber so) |})%list
                 ∧ activeSockets (References.repeated n sock u s)
                   = activeSockets s
                 ∧ pairingCodes (References.repeated n sock u s)
                   = pairingCodes s
                 ∧ sockets (References.repeated n sock u s) = sockets s
                 ∧ now (References.repeated n sock u s) = now s).
  { induction n as [|n (IH1 & IH2 & IH3 & IH4 & IH5)].
    - simpl. by rewrite app_nil_r.
    - unfold References.repeated in *. simpl.
      unfold onConnectionUpdate at 1 3 5 7 9. rewrite IH4, Hso. simpl.
      rewrite Hsr. simpl.
      rewrite IH1, IH5, <- app_assoc, <- replicate_cons_app.
      change RECONNECT_DELAY with 5000. done. }
  destruct Hall as (H1 & H2 & H3 & H4 & H5).
  split_and!; try done.
  intros botId. unfold getBotStatus. by rewrite H2, H4, H5.
Qed.

Lemma every_drop_schedules_a_reconnect_witness :
  timers (References.repeated 3 0
            {| connection_of := Some ConnClose; statusCode := Some 428 |}
            Scenario.pending_b1)
  = [ {| due := 600000; run := ExpirePairing "b1" |};
      {| due := 5000; run := Reconnect "b1" "+1555010022" |};
      {| due := 5000; run := Reconnect "b1" "+1555010022" |};
      {| due := 5000; run := Reconnect "b1" "+1555010022" |} ].
Proof.
  destruct (every_drop_schedules_a_reconnect Scenario.pending_b1 0
              {| sock_botId := "b1"; sock_phoneNumber := "+1555010022";
                 sock_registered := false; sock_user := None |}
              (Some 428) 3) as [H _].
  - reflexivity.
  - discriminate.
  - exact H.
Defined.

(** X5. When a pending reconnect runs for a bot whose credentials are
    still not registered, the bot gets a new socket and a new pairing
    entry with a freshly drawn code, dated now, in place of the old one:
    a code handed out before the drop is answered
    ["Invalid pairing code"] unless it happens to be drawn again. *)
Theorem reconnect_issues_a_new_code :
  ∀ s i d botId phone env,
    timers s !! i = Some {| due := d; run := Reconnect botId phone |} →
    d ≤ now s →
    lib env = LibOk → registered env = false →
    ∃ s',
      fire i env s = Some s'
      ∧ JSMap.get botId (pairingCodes s')
        = Some {| code := generatePairingCode (random env);
                  socket := length (sockets s);
                  phoneNumber := phone;
                  createdAt := now s |}
      ∧ JSMap.get botId (activeSockets s') = Some (length (sockets s))
      ∧ timers s'
        = (delete i (timers s) ++
             [{| due := now s + 600000; run := ExpirePairing botId |}])%list
      ∧ ∀ old native,
          old ≠ generatePairingCode (random env) →
          verifyPairingCode botId old native s'
          = ({| success := false; message := "Invalid pairing code" |}, s').
Proof.
  intros s i d botId phone env Hi Hd Hlib Hreg.
  unfold fire. rewrite Hi. simpl.
  replace (d <=? now s) with true by (symmetry; by apply Z.leb_le).
  eexists. split; [reflexivity|].
  unfold createBotSessionWithPairing. rewrite Hlib, Hreg. simpl.
  rewrite !JSMapFacts.get_set_eq. split_and!; try done.
  intros old native Hold. unfold verifyPairingCode. simpl.
  rewrite JSMapFacts.get_set_eq. simpl.
  destruct (String.eqb_spec (generatePairingCode (random env)) old);
    [congruence|done].
Qed.

Lemma reconnect_issues_a_new_code_witness :
  ∃ s',
    fire 1 (Scenario.fresh (1 # 4)) Scenario2.dropped_b1_state = Some s'
    ∧ JSMap.get "b1" (pairingCodes s')
      = Some {| code := "32500000"; socket := 1;
                phoneNumber := "+1555010022"; createdAt := 5000 |}.
Proof.
  destruct (reconnect_issues_a_new_code Scenario2.dropped_b1_state 1 5000
              "b1" "+1555010022" (Scenario.fresh (1 # 4)))
    as (s' & H1 & H2 & _).
  - reflexivity.
  - vm_compute. discriminate.
  - reflexivity.
  - reflexivity.
  - exists s'. split; [exact H1|exact H2].
Defined.

(** X6. [verifyPairingCode] succeeds exactly when the bot has a pairing
    entry, the submitted code equals the stored one and the native
    request resolves; it makes the native request, on the socket of the
    entry and with the stored phone number less its first ["+"], exactly
    when the entry exists and the code matches, and otherwise returns the
    state as it was; it never changes the registry, the pairing table,
    the timers, the sockets, the clock or the directories. *)
Theorem verification_outcome :
  ∀ s botId submitted native,
    (success (fst (verifyPairingCode botId submitted native s)) = true
     ↔ ∃ pd, JSMap.get botId (pairingCodes s) = Some pd
             ∧ code pd = submitted ∧ native = None)
    ∧ ((∃ pd, JSMap.get botId (pairingCodes s) = Some pd
              ∧ code pd = submitted
              ∧ snd (verifyPairingCode botId submitted native s)
                = perform (RequestPairingCode (socket pd)
                             (JS.replace_first_plus (phoneNumber pd))) s)
       ∨ ((∀ pd, JSMap.get botId (pairingCodes s) = Some pd →
                 code pd ≠ submitted)
          ∧ snd (verifyPairingCode botId submitted native s) = s))
    ∧ activeSockets (snd (verifyPairingCode botId submitted native s))
      = activeSockets s
    ∧ pairingCodes (snd (verifyPairingCode botId submitted native s))
      = pairingCodes s
    ∧ timers (snd (verifyPairingCode botId submitted native s)) = timers s
    ∧ sockets (snd (verifyPairingCode botId submitted native s)) = sockets s
    ∧ now (snd (verifyPairingCode botId submitted native s)) = now s
    ∧ dirs (snd (verifyPairingCode botId submitted native s)) = dirs s.
Proof.
  intros s botId submitted native. unfold verifyPairingCode.
  destruct (JSMap.get botId (pairingCodes s)) as [pd|] eqn:Hget; simpl.
  - destruct (String.eqb_spec (code pd) submitted) as [Heq|Hne]; simpl.
    + destruct native as [m|]; simpl.
      * split_and!; try done.
        -- split; [done|]. by intros (? & _ & _ & ?).
        -- left. by exists pd.
      * split_and!; try done.
        -- split; [|done]. intros _. by exists pd.
        -- left. by exists pd.
    + split_and!; try done.
      * split; [done|]. intros (pd' & [= <-] & ? & _). done.
      * right. split; [|done]. by intros pd' [= <-].
  - split_and!; try done.
    + split; [done|]. by intros (? & ? & _).
    + right. by split.
Qed.

(** X7. The verify route, for a body whose bot id is a string or
    missing and whose code is any JSON value. It answers 200, 400 or
    500. It answers 200 exactly when the bot id is truthy, the code is a
    string of eight digits, the bot has a pairing entry with that code
    and the native request resolves; and 500 exactly when both fields
    are truthy and the code cannot be turned into a string. A truthy
    code that is no string but prints as eight digits passes the
    pattern and is then refused with 400: ["Invalid pairing code"] when
    the bot has an entry, ["Pairing code expired or invalid"] when it
    has none. Unless the bot id is truthy and the code is a string of
    eight digits, the state is left as it was; and a native request that
    fails is answered 400 with the message of its error after
    ["Pairing failed: "]. *)
Theorem verify_route_answers :
  ∀ req native s,
    (http_status (fst (PairRoutesJson.postVerify req native s)) = 200
     ∨ http_status (fst (PairRoutesJson.postVerify req native s)) = 400
     ∨ http_status (fst (PairRoutesJson.postVerify req native s)) = 500)
    ∧ (http_status (fst (PairRoutesJson.postVerify req native s)) = 200
       ↔ JS.truthy (PairRoutesJson.body_verify_botId req) = true
         ∧ ∃ c pd,
             PairRoutesJson.body_code req = Json.Str c
             ∧ JS.is_eight_digits c = true
             ∧ JSMap.get (from_field (PairRoutesJson.body_verify_botId req))
                 (pairingCodes s) = Some pd
             ∧ code pd = c
             ∧ native = None)
    ∧ (http_status (fst (PairRoutesJson.postVerify req native s)) = 500
       ↔ JS.truthy (PairRoutesJson.body_verify_botId req) = true
         ∧ Json.truthy (PairRoutesJson.body_code req) = true
         ∧ Json.toStr (PairRoutesJson.body_code req) = None)
    ∧ (∀ text,
         JS.truthy (PairRoutesJson.body_verify_botId req) = true →
         Json.truthy (PairRoutesJson.body_code req) = true →
         (∀ c, PairRoutesJson.body_code req ≠ Json.Str c) →
         Json.toStr (PairRoutesJson.body_code req) = Some text →
         JS.is_eight_digits text = true →
         PairRoutesJson.postVerify req native s
         = (fail 400
              match JSMap.get
                      (from_field (PairRoutesJson.body_verify_botId req))
                      (pairingCodes s) with
              | Some _ => "Invalid pairing code"
              | None => "Pairing code expired or invalid"
              end, s))
    ∧ (JS.truthy (PairRoutesJson.body_verify_botId req) = false
       ∨ (∀ c, PairRoutesJson.body_code req = Json.Str c →
               JS.is_eight_digits c = false) →
       snd (PairRoutesJson.postVerify req native s) = s)
    ∧ (∀ m c pd,
         JS.truthy (PairRoutesJson.body_verify_botId req) = true →
         PairRoutesJson.body_code req = Json.Str c →
         JS.is_eight_digits c = true →
         JSMap.get (from_field (PairRoutesJson.body_verify_botId req))
           (pairingCodes s) = Some pd →
         code pd = c →
         native = Some m →
         fst (PairRoutesJson.postVerify req native s)
         = {| http_status := 400; resp_success := false;
              body := Message ("Pairing failed: " +:+ m) |}).
Proof.
  intros [b v] native s. unfold PairRoutesJson.postVerify.
  cbn [PairRoutesJson.body_verify_botId PairRoutesJson.body_code].
  destruct (JS.truthy b) eqn:Hb; cbn [negb orb]; [|answers ""].
  destruct (Json.truthy v) eqn:Hv; cbn [negb orb].
  2: { destruct v as [| |bv|n|c|l|ks]; try answers "".
       apply negb_false_iff, String.eqb_eq in Hv as ->. answers "". }
  destruct (Json.toStr v) as [text|] eqn:Htext; [|answers ""].
  destruct (JS.is_eight_digits text) eqn:H8; cbn [negb].
  2: { destruct v as [| |bv|n|c|l|ks]; simplify_eq/=; answers "". }
  change (bound "verifyPairingCode") with true. cbv iota.
  unfold PairRoutesJson.verifyPairingCode, verifyPairingCode.
  destruct v as [| |bv|n|c|l|ks];
    try (destruct (JSMap.get (from_field b) (pairingCodes s));
         cbn [success message fst snd http_status fail];
         answers "").
  injection Htext as ->.
  destruct (JSMap.get (from_field b) (pairingCodes s)) as [pd|] eqn:Hget;
    cbn [success message fst snd http_status fail]; [|answers text].
  destruct (String.eqb_spec (code pd) text) as [Heq|Hne];
    cbn [negb success message fst snd http_status fail]; [|answers text].
  destruct native as [m|];
    cbn [success message fst snd http_status fail]; answers text.
Qed.



(** X9. In a reachable state the expiry callback of a bot removes the
    pairing entry of that bot and nothing else: the entries of the other
    bots, the registry (hence the reported status), the sockets and the
    effects are as before, running it twice is the same as running it
    once, and a due expiry timer that fires leaves the pending list
    without it. *)
Theorem expiry_touches_only_its_bot :
  ∀ s botId,
    reachable s →
    JSMap.get botId (pairingCodes (expirePairing botId s)) = None
    ∧ (∀ b, b ≠ botId →
         JSMap.get b (pairingCodes (expirePairing botId s))
         = JSMap.get b (pairingCodes s))
    ∧ expirePairing botId (expirePairing botId s) = expirePairing botId s
    ∧ (∀ b, getBotStatus b (expirePairing botId s) = getBotStatus b s)
    ∧ effects (expirePairing botId s) = effects s
    ∧ (∀ i d env,
         timers s !! i = Some {| due := d; run := ExpirePairing botId |} →
         d ≤ now s →
         ∃ s', fire i env s = Some s'
               ∧ timers s' = delete i (timers s)
               ∧ JSMap.get botId (pairingCodes s') = None
               ∧ activeSockets s' = activeSockets s).
Proof.
  intros s botId Hreach.
  pose proof (EventLoopFacts.invariant_reachable s Hreach) as [_ Hwf _].
  assert (Hgone : JSMap.get botId (pairingCodes (expirePairing botId s)) = None)
    by (by apply expiry_removes_entry).
  split_and!; try done.
  - intros b Hb. unfold expirePairing.
    destruct (JSMap.has botId (pairingCodes s)); [|done]. simpl.
    by apply JSMapFacts.get_delete_ne.
  - unfold expirePairing at 1. unfold JSMap.has. by rewrite Hgone.
  - intros b. unfold expirePairing.
    by destruct (JSMap.has botId (pairingCodes s)).
  - unfold expirePairing. by destruct (JSMap.has botId (pairingCodes s)).
  - intros i d env Hi Hd. unfold fire. rewrite Hi. simpl.
    replace (d <=? now s) with true by (symmetry; by apply Z.leb_le).
    eexists. split; [reflexivity|].
    unfold expirePairing, JSMap.has. simpl.
    destruct (JSMap.get botId (pairingCodes s)) eqn:Hget; simpl.
    + split_and!; try done. by apply JSMapFacts.get_delete_eq.
    + done.
Qed.

Lemma expiry_touches_only_its_bot_witness :
  JSMap.get "b1" (pairingCodes (expirePairing "b1" Scenario2.two_bots_state))
  = None
  ∧ status (getBotStatus "b1" (expirePairing "b1" Scenario2.two_bots_state))
    = "connected".
Proof.
  destruct (expiry_touches_only_its_bot Scenario2.two_bots_state "b1")
    as (H1 & _ & _ & H4 & _).
  - exists Scenario2.two_bots. reflexivity.
  - split; [exact H1|]. rewrite H4. reflexivity.
Defined.

(** X10. In a reachable state a [connection.update] on a socket made for
    a bot never changes the registry entry or the pairing entry of
    another bot, nor the socket store or the clock. The only thing the
    listener ever emits is one ["connected"] status on [open], which also
    deletes the pairing entry of the bot and leaves its registry entry.
    A closure with status 401 deletes both entries of the bot, whichever
    socket the registry holds by then, and adds no timer. An update that
    is neither [open] nor [close] changes nothing. *)
Theorem connection_update_frame :
  ∀ s sock so u,
    reachable s →
    sockets s !! sock = Some so →
    (∀ b, b ≠ sock_botId so →
       JSMap.get b (activeSockets (onConnectionUpdate sock u s))
       = JSMap.get b (activeSockets s)
       ∧ JSMap.get b (pairingCodes (onConnectionUpdate sock u s))
         = JSMap.get b (pairingCodes s))
    ∧ sockets (onConnectionUpdate sock u s) = sockets s
    ∧ now (onConnectionUpdate sock u s) = now s
    ∧ (connection_of u = Some ConnOpen →
       effects (onConnectionUpdate sock u s)
       = (effects s ++ [EmitBotStatusUpdate (sock_botId so) "connected"])%list
       ∧ JSMap.get (sock_botId so)
           (pairingCodes (onConnectionUpdate sock u s)) = None
       ∧ activeSockets (onConnectionUpdate sock u s) = activeSockets s
       ∧ timers (onConnectionUpdate sock u s) = timers s)
    ∧ (connection_of u ≠ Some ConnOpen →
       effects (onConnectionUpdate sock u s) = effects s)
    ∧ (connection_of u = Some ConnClose → statusCode u = Some 401 →
       JSMap.get (sock_botId so)
         (activeSockets (onConnectionUpdate sock u s)) = None
       ∧ JSMap.get (sock_botId so)
           (pairingCodes (onConnectionUpdate sock u s)) = None
       ∧ timers (onConnectionUpdate sock u s) = timers s)
    ∧ (connection_of u ≠ Some ConnOpen → connection_of u ≠ Some ConnClose →
       onConnectionUpdate sock u s = s).
Proof.
  intros s sock so u Hreach Hso.
  pose proof (EventLoopFacts.invariant_reachable s Hreach) as [Hwf1 Hwf2 _].
  unfold onConnectionUpdate, shouldReconnect. rewrite Hso.
  destruct (connection_of u) as [[| |]|]; simpl.
  - split_and!; try done.
    + intros b Hb. split; [done|]. by apply JSMapFacts.get_delete_ne.
    + intros _. split_and!; try done. by apply JSMapFacts.get_delete_eq.
  - destruct (statusCode u) as [c|]; simpl.
    + destruct (Z.eqb_spec c 401) as [->|Hne]; simpl.
      * split_and!; try done.
        -- intros b Hb. split; by apply JSMapFacts.get_delete_ne.
        -- intros _ _. split_and!; try done;
             by apply JSMapFacts.get_delete_eq.
      * split_and!; try done. intros _ [= ?]. done.
    + split_and!; done.
  - split_and!; done.
  - split_and!; done.
Qed.

Lemma connection_update_frame_witness :
  JSMap.get "b1"
    (activeSockets
       (onConnectionUpdate 1 Scenario.logout Scenario2.two_bots_state))
  = Some 0%nat
  ∧ JSMap.get "b2"
      (activeSockets
         (onConnectionUpdate 1 Scenario.logout Scenario2.two_bots_state))
    = None.
Proof.
  destruct (connection_update_frame Scenario2.two_bots_state 1
              {| sock_botId := "b2"; sock_phoneNumber := "+15550100222";
                 sock_registered := true;
                 sock_user := Some "15550100@s.whatsapp.net" |}
              Scenario.logout)
    as (H1 & _ & _ & _ & _ & H6 & _).
  - exists Scenario2.two_bots. reflexivity.
  - reflexivity.
  - split.
    + destruct (H1 "b1") as [H _]; [discriminate|]. rewrite H. reflexivity.
    + destruct H6 as [H _]; [reflexivity|reflexivity|]. exact H.
Defined.

(** X11. In every reachable state the registry holds at most one socket
    per bot; every socket it holds exists and was made for that bot, whose
    session directory exists; and every pairing entry belongs to a bot
    that is in the registry, refers to an existing socket made for that
    bot with the phone number of the entry and with unregistered
    credentials, and is dated no later than the clock. *)
Theorem references_stay_valid :
  ∀ s,
    reachable s →
    (∀ botId, (length (JSMap.entries botId (activeSockets s)) ≤ 1)%nat)
    ∧ (∀ botId sock,
         JSMap.get botId (activeSockets s) = Some sock →
         (∃ so, sockets s !! sock = Some so ∧ sock_botId so = botId)
         ∧ sessionPath botId ∈ dirs s)
    ∧ (∀ botId e,
         JSMap.get botId (pairingCodes s) = Some e →
         is_Some (JSMap.get botId (activeSockets s))
         ∧ (∃ so, sockets s !! socket e = Some so
                  ∧ sock_botId so = botId
                  ∧ sock_phoneNumber so = phoneNumber e
                  ∧ sock_registered so = false)
         ∧ createdAt e ≤ now s).
Proof.
  intros s Hreach.
  pose proof (EventLoopFacts.invariant_reachable s Hreach) as [Hwf _ _].
  pose proof (ReferencesFacts.linked_reachable s Hreach) as [L1 L2 L3 L4 L5].
  split_and!.
  - intros botId. by apply JSMapFacts.entries_at_most_one.
  - intros botId sock Hget. split; eauto.
  - intros botId e Hget. split_and!; eauto.
Qed.

Lemma references_stay_valid_witness :
  (length (JSMap.entries "b1" (activeSockets Scenario2.two_bots_state)) ≤ 1)%nat
  ∧ is_Some (JSMap.get "b1" (activeSockets Scenario2.two_bots_state)).
Proof.
  destruct (references_stay_valid Scenario2.two_bots_state) as (H1 & _ & H3).
  - exists Scenario2.two_bots. reflexivity.
  - split; [apply H1|].
    destruct (H3 "b1" {| code := "55000000"; socket := 0;
                         phoneNumber := "+1555010022"; createdAt := 0 |})
      as [H _]; [reflexivity|exact H].
Defined.

(** X19. In every reachable state each pairing entry has a pending
    expiry timer for its bot, due exactly 10 minutes after the entry was
    created. And no task cancels a timer: after any task the pending
    timers are those of before, less the one that ran when the task was
    a callback, followed by those the task has set. So a timer stays
    pending until it runs. *)
Theorem every_entry_has_its_expiry_timer :
  ∀ s,
    reachable s →
    (∀ botId e,
       JSMap.get botId (pairingCodes s) = Some e →
       {| due := createdAt e + 600000; run := ExpirePairing botId |}
         ∈ timers s)
    ∧ (∀ ev s',
         step ev s = Some s' →
         ∃ added,
           timers s'
           = (match ev with
              | Fire i _ => delete i (timers s)
              | _ => timers s
              end ++ added)%list).
Proof.
  intros s Hreach. split.
  - intros botId e Hget.
    pose proof (EventLoopFacts.invariant_reachable s Hreach) as Hinv.
    exact (inv_expiry s Hinv botId e Hget).
  - intros ev s' Hstep.
    destruct ev as [botId phoneNumber env|botId c native|req env|req native
                   |sock u|sock u|i env|t]; simpl in Hstep.
    + injection Hstep as <-. apply TimerFacts.appends_create.
    + injection Hstep as <-. apply TimerFacts.appends_verify.
    + injection Hstep as <-. apply TimerFacts.appends_postGenerate.
    + injection Hstep as <-. apply TimerFacts.appends_postVerify.
    + injection Hstep as <-. apply TimerFacts.appends_onConnectionUpdate.
    + injection Hstep as <-. apply TimerFacts.appends_attachUser.
    + unfold fire in Hstep.
      destruct (timers s !! i) as [tm|]; [|done].
      destruct (due tm <=? now s); [|done].
      injection Hstep as <-. apply TimerFacts.runCallback_timers.
    + unfold tick in Hstep.
      destruct (now s <=? t); [|done].
      injection Hstep as <-. exists []. by rewrite app_nil_r.
Qed.

Lemma every_entry_has_its_expiry_timer_witness :
  {| due := 600000; run := ExpirePairing "b1" |}
    ∈ timers Scenario2.overdue_state
  ∧ ∃ added,
      timers (snd (createBotSessionWithPairing "b2" "+15550100222"
                     (Scenario.fresh (1 # 4)) Scenario2.overdue_state))
      = (timers Scenario2.overdue_state ++ added)%list.
Proof.
  destruct (every_entry_has_its_expiry_timer Scenario2.overdue_state)
    as [Hentry Hkept].
  - exists Scenario2.overdue. reflexivity.
  - split.
    + apply (Hentry "b1"
               {| code := "55000000"; socket := 0;
                  phoneNumber := "+15550100222"; createdAt := 0 |}).
      reflexivity.
    + apply (Hkept (Create "b2" "+15550100222" (Scenario.fresh (1 # 4)))).
      reflexivity.
Defined.

(* ===================================================================== *)
(** ** The default session *)
(* ===================================================================== *)

Module JSStringFacts.
Import JSString.

Lemma startsWith_spec p s :
  startsWith p s = true ↔ ∃ rest, s = p +:+ rest.
Proof.
  revert s. induction p as [|a p IH]; intros s; simpl.
  - split; [by exists s|done].
  - destruct s as [|b s]; simpl.
    + split; [done|by intros [? ?]].
    + rewrite andb_true_iff, IH. split.
      * intros [Hab [rest ->]]. apply Ascii.eqb_eq in Hab as ->.
        by exists rest.
      * intros [rest [= -> ->]]. split; [apply Ascii.eqb_refl|by exists rest].
Qed.

Lemma endsWith_spec p s :
  endsWith p s = true ↔ ∃ stem, s = stem +:+ p.
Proof.
  induction s as [|b s IH].
  - destruct p as [|a p]; simpl.
    + split; [by exists ""|done].
    + split; [done|]. intros [stem Hs]. by destruct stem.
  - cbn [endsWith]. rewrite orb_true_iff, IH. split.
    + intros [Heq%String.eqb_eq|[stem ->]].
      * by exists "".
      * by exists (String b stem).
    + intros [stem Hs]. destruct stem as [|c stem]; simpl in Hs.
      * left. rewrite Hs. apply String.eqb_refl.
      * right. injection Hs as -> ->. by exists stem.
Qed.

End JSStringFacts.

Module DefaultSessionFacts.
Import DefaultSession SessionRoutes.

(** The configured session reference is never empty. *)
Lemma SESSION_ID_nonempty env : String.eqb (Config.SESSION_ID env) "" = false.
Proof.
  unfold Config.SESSION_ID. destruct env as [v|]; [|done].
  by destruct (String.eqb v "") eqn:Hv.
Qed.

Lemma session_dir_ensured s :
  SessionManager.SESSION_DIR ∈ SessionManager.dirs (base (ensureSessionDir s)).
Proof. simpl. apply elem_of_union_l. by apply elem_of_singleton. Qed.

Lemma downloadSession_state env s r s' :
  downloadSession env s = (r, s') →
  base s' = base s ∧ conn s' = conn s
  ∧ match r with
    | Ok _ => credsFile s' = true
    | Err _ => s' = s
    end.
Proof.
  unfold downloadSession, downloadFromMega, downloadFromURL, decodeSession.
  change (has_method "fetchSessionData") with false. cbv iota.
  destruct (JSString.startsWith "IZUKA~" _).
  { by intros [= <- <-]. }
  destruct (JSString.startsWith "http" _).
  - destruct (fetched env); by intros [= <- <-].
  - destruct (decoded env); by intros [= <- <-].
Qed.

Lemma consistent_initialize env s :
  consistent (snd (initializeSession env s)).
Proof.
  unfold initializeSession, consistent.
  destruct (_ && _).
  - destruct (downloadSession env (ensureSessionDir s)) as [r s1] eqn:Hd.
    apply downloadSession_state in Hd as (Hb & _ & Hr).
    destruct r as [[]|m]; simpl.
    + unfold connectToWhatsApp. destruct (connects env); simpl; intros _.
      * rewrite Hb. apply session_dir_ensured.
      * apply elem_of_union_l. by apply elem_of_singleton.
      * apply elem_of_union_l. by apply elem_of_singleton.
    + subst s1. intros _. apply session_dir_ensured.
  - unfold connectToWhatsApp. destruct (connects env); simpl; intros _;
      apply elem_of_union_l; by apply elem_of_singleton.
Qed.

Lemma clearSession_cleared s :
  consistent s →
  credsFile (clearSession s) = false
  ∧ SessionManager.SESSION_DIR ∉ SessionManager.dirs (base (clearSession s)).
Proof.
  intros Hc. unfold clearSession, SessionManager.clearSession.
  destruct (bool_decide_reflect
              (SessionManager.SESSION_DIR ∈ SessionManager.dirs (base s)))
    as [Hin|Hout]; simpl.
  - split; [done|].
    apply not_elem_of_difference. right. by apply elem_of_singleton.
  - split; [|done]. destruct (credsFile s) eqn:Hcreds; [|done].
    exfalso. by apply Hout, Hc.
Qed.

Lemma consistent_clearSession s : consistent s → consistent (clearSession s).
Proof.
  intros Hc. destruct (clearSession_cleared s Hc) as [Hf _].
  unfold consistent. by rewrite Hf.
Qed.

Lemma consistent_step e s : consistent s → consistent (step e s).
Proof.
  intros Hc. destruct e as [env|env| |u loads|i env]; simpl.
  - apply consistent_initialize.
  - unfold postRestart.
    pose proof (consistent_initialize env (clearSession s)) as H.
    by destruct (initializeSession env (clearSession s)) as [[c|m] s1].
  - by apply consistent_clearSession.
  - unfold onUpdate.
    assert (He : ∀ e, consistent (emit e s)) by (intros e; exact Hc).
    assert (Hs : consistent
                   (if JS.truthy (qr u)
                    then emit (QrGenerated (default "" (qr u))) s else s))
      by (by destruct (JS.truthy (qr u))).
    set (s0 := if JS.truthy (qr u)
               then emit (QrGenerated (default "" (qr u))) s else s) in *.
    clearbody s0.
    destruct (connection_of u) as [[| |]|]; try done.
    + unfold consistent, loadPlugins. by destruct (pluginDir (setConnected s0)).
    + destruct (isLoggedOut (statusCode u)) eqn:Hlo.
      * by apply consistent_clearSession.
      * unfold consistent, SessionManager.onClose. simpl.
        unfold isLoggedOut in Hlo.
        destruct (statusCode u) as [c|]; simpl; [|done].
        by rewrite Hlo.
  - unfold fireReconnect.
    destruct (SessionManager.reconnects (base s) !! i); [|done].
    unfold connectToWhatsApp, consistent.
    destruct (connects env); simpl; try done;
      intros _; apply elem_of_union_l; by apply elem_of_singleton.
Qed.

Lemma consistent_run evs : ∀ s, consistent s → consistent (run evs s).
Proof.
  induction evs as [|e evs IH]; intros s Hc; [done|].
  apply IH. by apply consistent_step.
Qed.

(** The references that select the MEGA download. *)
Lemma mega_reference env :
  env = None ∨ env = Some "" ∨ (∃ rest, env = Some ("IZUKA~" +:+ rest)) →
  JSString.startsWith "IZUKA~" (Config.SESSION_ID env) = true.
Proof.
  intros [->|[->|[rest ->]]]; [done|done|].
  unfold Config.SESSION_ID. simpl. reflexivity.
Qed.

Lemma initialize_mega env s :
  credsFile s = false →
  JSString.startsWith "IZUKA~" (Config.SESSION_ID (env_SESSION_ID env)) = true →
  initializeSession env s
  = (Err "this.fetchSessionData is not a function", ensureSessionDir s).
Proof.
  intros Hcreds Hmega. unfold initializeSession. simpl.
  rewrite Hcreds, SESSION_ID_nonempty. simpl.
  unfold downloadSession. rewrite Hmega. reflexivity.
Qed.

Lemma flag_step e s :
  SessionManager.isConnected (base s) = true →
  SessionManager.isConnected (base (step e s)) = true.
Proof.
  intros Hflag. destruct e as [env|env| |u loads|i env]; simpl.
  - unfold initializeSession.
    destruct (_ && _).
    + destruct (downloadSession env (ensureSessionDir s)) as [r s1] eqn:Hd.
      apply downloadSession_state in Hd as (Hb & _ & _).
      destruct r as [[]|m]; simpl; [|by rewrite Hb].
      unfold connectToWhatsApp. destruct (connects env); simpl;
        by rewrite Hb.
    + unfold connectToWhatsApp. by destruct (connects env).
  - unfold postRestart.
    assert (Hc : SessionManager.isConnected (base (clearSession s)) = true).
    { unfold clearSession, SessionManager.clearSession.
      by destruct (bool_decide _). }
    revert Hc. generalize (clearSession s). intros s0 Hc.
    unfold initializeSession.
    destruct (_ && _).
    + destruct (downloadSession env (ensureSessionDir s0)) as [r s1] eqn:Hd.
      apply downloadSession_state in Hd as (Hb & _ & _).
      destruct r as [[]|m]; simpl; [|by rewrite Hb].
      unfold connectToWhatsApp. destruct (connects env); simpl;
        by rewrite Hb.
    + unfold connectToWhatsApp. by destruct (connects env).
  - unfold clearSession, SessionManager.clearSession.
    by destruct (bool_decide _).
  - unfold onUpdate.
    assert (Hs : SessionManager.isConnected
                   (base (if JS.truthy (qr u)
                          then emit (QrGenerated (default "" (qr u))) s
                          else s)) = true)
      by (by destruct (JS.truthy (qr u))).
    revert Hs. generalize (if JS.truthy (qr u)
                           then emit (QrGenerated (default "" (qr u))) s
                           else s). intros s0 Hs.
    destruct (connection_of u) as [[| |]|]; try done.
    + unfold loadPlugins. by destruct (pluginDir (setConnected s0)).
    + destruct (isLoggedOut (statusCode u)).
      * unfold clearSession, SessionManager.clearSession.
        by destruct (bool_decide _).
      * unfold SessionManager.onClose. simpl.
        destruct (statusCode u) as [c|]; simpl; [|done].
        destruct (negb (c =? SessionManager.loggedOut)); [done|].
        unfold SessionManager.clearSession. by destruct (bool_decide _).
  - unfold fireReconnect.
    destruct (SessionManager.reconnects (base s) !! i); [|done].
    unfold connectToWhatsApp. by destruct (connects env).
Qed.

End DefaultSessionFacts.

Import DefaultSession SessionRoutes.

(** X12. With no local credentials file, a session reference that starts
    with ["IZUKA~"] (which is what an unset or empty environment variable
    gives) makes [initializeSession] throw
    ["this.fetchSessionData is not a function"]: the class has no such
    method. The session directory has been created by then; no
    credentials are written, no socket is made and nothing else
    changes. *)
Theorem mega_reference_fails_initialization :
  ∀ env s,
    credsFile s = false →
    env_SESSION_ID env = None
    ∨ env_SESSION_ID env = Some ""
    ∨ (∃ rest, env_SESSION_ID env = Some ("IZUKA~" +:+ rest)) →
    initializeSession env s
    = (Err "this.fetchSessionData is not a function", ensureSessionDir s)
    ∧ credsFile (snd (initializeSession env s)) = false
    ∧ conn (snd (initializeSession env s)) = conn s
    ∧ SessionManager.SESSION_DIR
        ∈ SessionManager.dirs (base (snd (initializeSession env s))).
Proof.
  intros env s Hcreds Hid.
  rewrite DefaultSessionFacts.initialize_mega;
    [|done|by apply DefaultSessionFacts.mega_reference].
  split_and!; try done. apply DefaultSessionFacts.session_dir_ensured.
Qed.

Lemma mega_reference_fails_initialization_witness :
  initializeSession Scenario3.defaults (clearSession Scenario3.connected)
  = (Err "this.fetchSessionData is not a function",
     ensureSessionDir (clearSession Scenario3.connected)).
Proof.
  destruct (mega_reference_fails_initialization Scenario3.defaults
              (clearSession Scenario3.connected)) as [H _].
  - reflexivity.
  - by left.
  - exact H.
Defined.

(** X13. When the local credentials file exists, [initializeSession]
    downloads nothing: whatever the session reference, the network and
    the decoder would give, it does what [connectToWhatsApp] does once
    the session directory is there. *)
Theorem local_session_wins :
  ∀ env env' s,
    credsFile s = true →
    connects env' = connects env →
    restored_user env' = restored_user env →
    initializeSession env s = connectToWhatsApp env (ensureSessionDir s)
    ∧ initializeSession env' s = initializeSession env s.
Proof.
  intros env env' s Hcreds Hc Hu.
  assert (H : ∀ e, initializeSession e s
                   = connectToWhatsApp e (ensureSessionDir s)).
  { intros e. unfold initializeSession. simpl. by rewrite Hcreds. }
  split; [apply H|]. rewrite !H. unfold connectToWhatsApp.
  by rewrite Hc, Hu.
Qed.

Lemma local_session_wins_witness :
  initializeSession (Scenario3.from_url FetchNotOk) Scenario3.connected
  = initializeSession Scenario3.defaults Scenario3.connected.
Proof.
  destruct (local_session_wins Scenario3.defaults
              (Scenario3.from_url FetchNotOk) Scenario3.connected)
    as [_ H]; [reflexivity..|exact H].
Defined.

(** X14. [initializeSession] returns a connection only with a credentials
    file in place: the configured reference is never empty, so without a
    local file a download is always attempted and has to succeed first;
    the connection returned is the one stored in [this.conn], and the
    session directory exists. When it throws, [this.conn] is what it
    was. Either way the connected flag is not touched. *)
Theorem initialization_needs_credentials :
  ∀ env s,
    match initializeSession env s with
    | (Ok c, s') =>
        credsFile s' = true
        ∧ conn s' = Some c
        ∧ conn_user c = restored_user env
        ∧ connects env = Connects
        ∧ SessionManager.SESSION_DIR ∈ SessionManager.dirs (base s')
        ∧ SessionManager.isConnected (base s')
          = SessionManager.isConnected (base s)
    | (Err m, s') =>
        conn s' = conn s
        ∧ SessionManager.isConnected (base s')
          = SessionManager.isConnected (base s)
    end.
Proof.
  intros env s. unfold initializeSession, ensureSessionDir. simpl.
  rewrite DefaultSessionFacts.SESSION_ID_nonempty. simpl.
  destruct (credsFile s) eqn:Hcreds; simpl.
  - unfold connectToWhatsApp. destruct (connects env); simpl; try done.
    split_and!; try done. apply elem_of_union_l. by apply elem_of_singleton.
  - match goal with
    | |- context [downloadSession env ?s0] =>
        destruct (downloadSession env s0) as [r s1] eqn:Hd
    end.
    apply DefaultSessionFacts.downloadSession_state in Hd as (Hb & Hc & Hr).
    destruct r as [[]|m]; simpl.
    + unfold connectToWhatsApp. destruct (connects env); simpl;
        rewrite ?Hb, ?Hc; try done.
      split_and!; try done. apply elem_of_union_l. by apply elem_of_singleton.
    + by subst s1.
Qed.

(** X15. On a session whose credentials file, if any, lies in the session
    directory, [clearSession] removes the directory and the file, so the
    status reports [sessionExists: false]; clearing twice is clearing
    once; the connected flag, the connection with its user and the
    pending reconnects are left as they were, so the status still reports
    the old flag and user. A closure with status 401 does exactly this,
    and the clear route answers 200. *)
Theorem clearing_the_default_session :
  ∀ s,
    consistent s →
    st_sessionExists (getStatus (clearSession s)) = false
    ∧ (SessionManager.SESSION_DIR
         ∉ SessionManager.dirs (base (clearSession s)))
    ∧ clearSession (clearSession s) = clearSession s
    ∧ st_isConnected (getStatus (clearSession s))
      = st_isConnected (getStatus s)
    ∧ st_user (getStatus (clearSession s)) = st_user (getStatus s)
    ∧ SessionManager.reconnects (base (clearSession s))
      = SessionManager.reconnects (base s)
    ∧ (∀ loads,
         onUpdate {| connection_of := Some ConnClose;
                     statusCode := Some 401; qr := None |} loads s
         = clearSession s)
    ∧ deleteClear s
      = ({| http_status := 200; resp_success := true;
            body := Message "Session cleared" |}, clearSession s).
Proof.
  intros s Hc.
  destruct (DefaultSessionFacts.clearSession_cleared s Hc) as [Hf Hd].
  split_and!; try done.
  - unfold clearSession at 1. by rewrite bool_decide_eq_false_2.
  - unfold clearSession, SessionManager.clearSession.
    by destruct (bool_decide _).
  - unfold clearSession. by destruct (bool_decide _).
  - unfold clearSession, SessionManager.clearSession.
    by destruct (bool_decide _).
Qed.

Lemma clearing_the_default_session_witness :
  st_sessionExists (getStatus (clearSession Scenario3.connected)) = false
  ∧ st_isConnected (getStatus (clearSession Scenario3.connected)) = true.
Proof.
  destruct (clearing_the_default_session Scenario3.connected)
    as (H1 & _ & _ & H4 & _).
  - intros _. reflexivity.
  - split; [exact H1|]. rewrite H4. reflexivity.
Defined.

(** X16. Nothing ever resets the connected flag: once it is true it stays
    true through any sequence of initializations, restarts, clears,
    connection updates (closures and logouts included) and reconnects, so
    the status route keeps reporting [isConnected: true]. *)
Theorem connected_flag_is_never_reset :
  ∀ evs s,
    SessionManager.isConnected (base s) = true →
    SessionManager.isConnected (base (run evs s)) = true
    ∧ st_isConnected (getStatus (run evs s)) = true.
Proof.
  intros evs s Hflag.
  assert (H : SessionManager.isConnected (base (run evs s)) = true).
  { revert s Hflag. induction evs as [|e evs IH]; intros s Hflag; [done|].
    apply IH. by apply DefaultSessionFacts.flag_step. }
  by split.
Qed.

Lemma connected_flag_is_never_reset_witness :
  st_isConnected
    (getStatus
       (run [ Updated Scenario3.logged_out (fun _ => true); Clear;
              Restart Scenario3.defaults ] Scenario3.connected))
  = true.
Proof.
  destruct (connected_flag_is_never_reset
              [ Updated Scenario3.logged_out (fun _ => true); Clear;
                Restart Scenario3.defaults ] Scenario3.connected)
    as [_ H]; [reflexivity|exact H].
Defined.

(** X17. The restart route first clears the session, so it always goes
    through the download; with a reference that starts with ["IZUKA~"]
    (the default) it therefore answers 500 with
    ["this.fetchSessionData is not a function"], after the credentials
    have been deleted: an empty session directory is left, and
    [this.conn] is still the old connection. *)
Theorem restart_with_mega_reference_fails :
  ∀ env s,
    consistent s →
    env_SESSION_ID env = None
    ∨ env_SESSION_ID env = Some ""
    ∨ (∃ rest, env_SESSION_ID env = Some ("IZUKA~" +:+ rest)) →
    postRestart env s
    = ({| http_status := 500; resp_success := false;
          body := Message "this.fetchSessionData is not a function" |},
       ensureSessionDir (clearSession s))
    ∧ st_sessionExists (getStatus (snd (postRestart env s))) = false
    ∧ conn (snd (postRestart env s)) = conn s
    ∧ SessionManager.SESSION_DIR
        ∈ SessionManager.dirs (base (snd (postRestart env s))).
Proof.
  intros env s Hc Hid.
  destruct (DefaultSessionFacts.clearSession_cleared s Hc) as [Hf _].
  assert (Hr : postRestart env s
               = ({| http_status := 500; resp_success := false;
                     body := Message "this.fetchSessionData is not a function" |},
                  ensureSessionDir (clearSession s))).
  { unfold postRestart.
    rewrite DefaultSessionFacts.initialize_mega;
      [done|done|by apply DefaultSessionFacts.mega_reference]. }
  rewrite Hr. split_and!; try done.
  - simpl. unfold clearSession. by destruct (bool_decide _).
  - apply DefaultSessionFacts.session_dir_ensured.
Qed.

Lemma restart_with_mega_reference_fails_witness :
  fst (postRestart Scenario3.defaults Scenario3.connected)
  = {| http_status := 500; resp_success := false;
       body := Message "this.fetchSessionData is not a function" |}.
Proof.
  destruct (restart_with_mega_reference_fails Scenario3.defaults
              Scenario3.connected) as [H _].
  - intros _. reflexivity.
  - by left.
  - by rewrite H.
Defined.

(** X18. [loadPlugins] on an existing plugins directory requires, in
    directory order, exactly the files whose name ends in [.js] and does
    not start with [_], and keeps those whose [require] returns; a
    plugin that throws does not stop the others. When the directory is
    missing it is created empty and nothing is loaded. Session files,
    connection and flag are never touched. *)
Theorem plugins_loaded :
  ∀ loads s,
    (∀ files,
        pluginDir s = Some files →
        (∀ f, f ∈ loaded (loadPlugins loads s)
              ↔ f ∈ loaded s
                ∨ (f ∈ files
                   ∧ (∃ stem, f = stem +:+ ".js")
                   ∧ ¬ (∃ rest, f = "_" +:+ rest)
                   ∧ loads f = true))
        ∧ loaded (loadPlugins loads s)
          = (loaded s ++
               List.filter loads (List.filter isPlugin files))%list
        ∧ pluginDir (loadPlugins loads s) = Some files)
    ∧ (pluginDir s = None →
       pluginDir (loadPlugins loads s) = Some []
       ∧ loaded (loadPlugins loads s) = loaded s)
    ∧ base (loadPlugins loads s) = base s
    ∧ conn (loadPlugins loads s) = conn s
    ∧ credsFile (loadPlugins loads s) = credsFile s.
Proof.
  intros loads s. unfold loadPlugins. split_and!.
  - intros files Hdir. rewrite Hdir. simpl. split_and!; try done.
    intros f. rewrite elem_of_app, !list_elem_of_In, !filter_In.
    unfold isPlugin. rewrite andb_true_iff, negb_true_iff.
    rewrite JSStringFacts.endsWith_spec.
    rewrite <- not_true_iff_false, JSStringFacts.startsWith_spec.
    rewrite <- !list_elem_of_In. tauto.
  - intros Hdir. by rewrite Hdir.
  - by destruct (pluginDir s).
  - by destruct (pluginDir s).
  - by destruct (pluginDir s).
Qed.

(** X20. With no local credentials file and a session reference that
    does not start with ["IZUKA~"]: a reference that starts with ["http"]
    is fetched, and the initialization throws the error of the fetch or
    of its JSON body, or ["Failed to fetch session"] when the response is
    not ok, and otherwise writes the credentials and goes on to connect;
    any other reference is decoded as base64 JSON, and the initialization
    throws the parse error or writes the credentials and goes on to
    connect. On a download error only the session directory has been
    added. *)
Theorem download_by_reference :
  ∀ env s,
    credsFile s = false →
    JSString.startsWith "IZUKA~" (Config.SESSION_ID (env_SESSION_ID env))
    = false →
    (JSString.startsWith "http" (Config.SESSION_ID (env_SESSION_ID env))
     = true →
     initializeSession env s
     = match fetched env with
       | FetchRejects m => (Err m, ensureSessionDir s)
       | FetchNotOk => (Err "Failed to fetch session", ensureSessionDir s)
       | FetchJsonRejects m => (Err m, ensureSessionDir s)
       | FetchJson =>
           connectToWhatsApp env (with_credsFile true (ensureSessionDir s))
       end)
    ∧ (JSString.startsWith "http" (Config.SESSION_ID (env_SESSION_ID env))
       = false →
       initializeSession env s
       = match decoded env with
         | Some m => (Err m, ensureSessionDir s)
         | None =>
             connectToWhatsApp env (with_credsFile true (ensureSessionDir s))
         end).
Proof.
  intros env s Hcreds Hmega.
  unfold initializeSession. cbv zeta.
  change (credsFile (ensureSessionDir s)) with (credsFile s).
  rewrite Hcreds, DefaultSessionFacts.SESSION_ID_nonempty.
  cbn [negb andb]. unfold downloadSession. cbv zeta. rewrite Hmega.
  split; intros Hhttp; rewrite Hhttp.
  - unfold downloadFromURL. by destruct (fetched env).
  - unfold decodeSession. by destruct (decoded env).
Qed.

Lemma download_by_reference_witness :
  initializeSession (Scenario3.from_url FetchNotOk)
    (clearSession Scenario3.connected)
  = (Err "Failed to fetch session",
     ensureSessionDir (clearSession Scenario3.connected)).
Proof.
  destruct (download_by_reference (Scenario3.from_url FetchNotOk)
              (clearSession Scenario3.connected)) as [H _].
  - reflexivity.
  - reflexivity.
  - apply H. reflexivity.
Defined.
